(** * Kokoro TTS HTTP service: the request handlers of
      [services/kokoro/server.py] and their properties.

    The handlers are embedded as functions over the Python values that
    [request.get_json()] yields, in a small state-and-exception monad that
    threads the module globals, the state of the external engine and the
    log of the calls made to it.  Arithmetic on samples is IEEE-754
    binary32, taken from the Standard Library's [SpecFloat] at [prec = 24]
    and [emax = 128]; Python floats are binary64 ([prec = 53],
    [emax = 1024]). *)

From Stdlib Require Import ZArith QArith Qabs Qround List String Ascii Bool Lia.
From Stdlib Require Import Floats.SpecFloat.
From Stdlib Require Import Numbers.DecimalString.
From Stdlib Require Import Strings.Byte.
Import ListNotations.

Local Open Scope string_scope.
Local Open Scope list_scope.
Local Open Scope Z_scope.

(* ================================================================== *)
(** * Floating-point numbers                                           *)
(* ================================================================== *)

(** numpy's [float32]. *)
Module F32.
Definition prec : Z := 24.
Definition emax : Z := 128.
Definition valid (x : spec_float) : bool := valid_binary prec emax x.
Definition mul (x y : spec_float) : spec_float := SFmul prec emax x y.
Definition of_int (n : Z) : spec_float := binary_normalize prec emax n 0 false.
Definition one : spec_float := of_int 1.
End F32.

(** Python's [float], a binary64. *)
Module F64.
Definition prec : Z := 53.
Definition emax : Z := 1024.
Definition of_int (n : Z) : spec_float := binary_normalize prec emax n 0 false.
Definition div (x y : spec_float) : spec_float := SFdiv prec emax x y.
Definition zero : spec_float := S754_zero false.
Definition one : spec_float := of_int 1.
End F64.

(** The real number a float stands for, as a rational (0 for the
    non-finite ones, which no sample in [-1, 1] is). *)
Definition SF2Q (x : spec_float) : Q :=
  match x with
  | S754_finite s m e =>
      match e with
      | Zneg p => Qmake (cond_Zopp s (Zpos m)) (2 ^ p)%positive
      | _ => inject_Z (cond_Zopp s (Zpos m) * 2 ^ e)
      end
  | _ => 0%Q
  end.

(** The integer part of a rational, toward zero. *)
Definition Qtrunc (q : Q) : Z := Z.quot (Qnum q) (Zpos (Qden q)).

(** A float32 sample within [-1.0, 1.0]. *)
Definition unit_sample (x : spec_float) : bool :=
  F32.valid x && SFleb (SFopp F32.one) x && SFleb x F32.one.

(** ** [astype(np.int16)]

    The C cast of a float to a 16-bit integer drops the fractional part
    (rounds toward zero).  When the integer part does not fit, the cast is
    undefined in C; the model wraps it modulo 2^16, and sends NaN and the
    infinities to 0. *)
Definition SFtrunc (x : spec_float) : option Z :=
  match x with
  | S754_zero _ => Some 0
  | S754_finite s m e => Some (cond_Zopp s (Z.shiftl (Zpos m) e))
  | S754_infinity _ | S754_nan => None
  end.

Definition wrap_int16 (z : Z) : Z := (z + 32768) mod 65536 - 32768.

Definition astype_int16 (x : spec_float) : Z :=
  match SFtrunc x with
  | Some z => wrap_int16 z
  | None => 0
  end.

(** [audio_int16 = (audio * 32767).astype(np.int16)], element by element:
    the product of a float32 array and a Python int is a float32 array. *)
Definition sample_to_int16 (s : spec_float) : Z :=
  astype_int16 (F32.mul s (F32.of_int 32767)).

Definition audio_to_int16 (audio : list spec_float) : list Z :=
  map sample_to_int16 audio.

(** ** The conversion policy as the specification words it

    "each sample s maps to round(s * 32767) clamped to the signed 16-bit
    range": rounding to the nearest integer (ties to even, as Python's
    [round]), then saturation. *)
Definition Qround_nearest (q : Q) : Z :=
  let f := Qfloor q in
  match Qcompare (q - inject_Z f) (1 # 2) with
  | Lt => f
  | Gt => f + 1
  | Eq => if Z.even f then f else f + 1
  end.

Definition clamp_int16 (z : Z) : Z := Z.max (-32768) (Z.min 32767 z).

Definition spec_sample_to_int16 (s : spec_float) : Z :=
  clamp_int16 (Qround_nearest (SF2Q s * 32767)).

(* ================================================================== *)
(** * Python values                                                    *)
(* ================================================================== *)

(** An exception object; [str(e)] is [exn_msg e].  Every exception of
    the model derives from [Exception].  The messages of the
    interpreter's own errors are CPython's. *)
Record exn : Type := Exn { exn_type : string; exn_msg : string }.

(** The outcome of an expression that may raise. *)
Definition result (A : Type) : Type := (exn + A)%type.

(** What [json.loads] builds: [None], [bool], [int], [float], [str],
    [list] and [dict] (whose keys are strings, kept in insertion
    order). *)
#[local] Set Warnings "-register-all".
Inductive value : Type :=
| PNone
| PBool (b : bool)
| PInt (n : Z)
| PFloat (x : spec_float)
| PStr (s : string)
| PList (xs : list value)
| PDict (kvs : list (string * value)).

Definition type_name (v : value) : string :=
  match v with
  | PNone => "NoneType"
  | PBool _ => "bool"
  | PInt _ => "int"
  | PFloat _ => "float"
  | PStr _ => "str"
  | PList _ => "list"
  | PDict _ => "dict"
  end.

Definition TypeError (msg : string) : exn := Exn "TypeError" msg.
Definition ValueError (msg : string) : exn := Exn "ValueError" msg.

Fixpoint lookup {A : Type} (k : string) (kvs : list (string * A)) : option A :=
  match kvs with
  | [] => None
  | (k', v) :: rest => if String.eqb k' k then Some v else lookup k rest
  end.

Definition keys {A : Type} (kvs : list (string * A)) : list string :=
  map fst kvs.

Definition is_some {A : Type} (o : option A) : bool :=
  match o with Some _ => true | None => false end.

(** [bool(v)], as [not data] tests it. *)
Definition truthy (v : value) : bool :=
  match v with
  | PNone => false
  | PBool b => b
  | PInt n => negb (n =? 0)
  | PFloat x => negb (SFeqb x F64.zero)
  | PStr s => negb (String.eqb s EmptyString)
  | PList xs => match xs with [] => false | _ => true end
  | PDict kvs => match kvs with [] => false | _ => true end
  end.

(** [k in v] for a string [k]: key membership in a dict, substring
    test in a str, element test in a list, [TypeError] elsewhere. *)
Definition py_contains (k : string) (v : value) : result bool :=
  match v with
  | PDict kvs => inr (is_some (lookup k kvs))
  | PStr s => inr (is_some (index 0 k s))
  | PList xs =>
      inr (existsb (fun x => match x with PStr t => String.eqb t k | _ => false end) xs)
  | _ => inl (TypeError ("argument of type '" ++ type_name v ++ "' is not iterable"))
  end.

(** [v[k]] for a string [k]. *)
Definition py_getitem (v : value) (k : string) : result value :=
  match v with
  | PDict kvs =>
      match lookup k kvs with
      | Some x => inr x
      | None => inl (Exn "KeyError" ("'" ++ k ++ "'"))
      end
  | PStr _ => inl (TypeError "string indices must be integers, not 'str'")
  | PList _ => inl (TypeError "list indices must be integers or slices, not str")
  | _ => inl (TypeError ("'" ++ type_name v ++ "' object is not subscriptable"))
  end.

(** [v.get(k, default)]. *)
Definition py_get (v : value) (k : string) (default : value) : result value :=
  match v with
  | PDict kvs =>
      inr (match lookup k kvs with Some x => x | None => default end)
  | _ => inl (Exn "AttributeError"
                ("'" ++ type_name v ++ "' object has no attribute 'get'"))
  end.

(** [v in d] for a dict [d] with string keys: the value is hashed first,
    which lists and dicts refuse; no number, boolean or [None] equals a
    string. *)
Definition py_in_dict {A : Type} (v : value) (d : list (string * A)) : result bool :=
  match v with
  | PStr s => inr (is_some (lookup s d))
  | PList _ | PDict _ => inl (TypeError ("unhashable type: '" ++ type_name v ++ "'"))
  | _ => inr false
  end.

(** [d[v]] for a dict [d] with string keys.  (The [KeyError] of a key
    that is no string carries the repr of the key; the handler looks up
    only what passed the membership test.) *)
Definition py_dict_getitem (d : list (string * string)) (v : value) : result string :=
  match v with
  | PStr s =>
      match lookup s d with
      | Some x => inr x
      | None => inl (Exn "KeyError" ("'" ++ s ++ "'"))
      end
  | PList _ | PDict _ => inl (TypeError ("unhashable type: '" ++ type_name v ++ "'"))
  | _ => inl (Exn "KeyError" EmptyString)
  end.

Definition str_int (n : Z) : string := NilZero.string_of_int (Z.to_int n).

(** [a / b] on Python ints.  Python rounds the exact quotient once; for
    operands below 2^53 in magnitude, as every length and rate that
    reaches the division is, both convert exactly and the binary64
    division is that rounding. *)
Definition py_truediv (a b : Z) : result spec_float :=
  if b =? 0 then inl (Exn "ZeroDivisionError" "division by zero")
  else inr (F64.div (F64.of_int a) (F64.of_int b)).

(** The interpreter's conversions between floats and text, which the
    service only calls. *)
Class Builtins : Type := {
  (** [float(s)] on a str: the parsed float, or [None] for [ValueError] *)
  float_of_str : string -> option spec_float;
  (** [str(x)] on a float *)
  str_float : spec_float -> string
}.

(** [str(v)], as the f-string of the error message formats a voice.
    Lists and dicts never reach it: the membership test before it
    refuses them. *)
Definition py_str {B : Builtins} (v : value) : string :=
  match v with
  | PNone => "None"
  | PBool b => if b then "True" else "False"
  | PInt n => str_int n
  | PFloat x => str_float x
  | PStr s => s
  | PList _ | PDict _ => EmptyString
  end.

(** [float(v)]. *)
Definition py_float {B : Builtins} (v : value) : result spec_float :=
  match v with
  | PFloat x => inr x
  | PInt n =>
      match F64.of_int n with
      | S754_infinity _ => inl (Exn "OverflowError" "int too large to convert to float")
      | x => inr x
      end
  | PBool b => inr (if b then F64.one else F64.zero)
  | PStr s =>
      match float_of_str s with
      | Some x => inr x
      | None => inl (ValueError ("could not convert string to float: '" ++ s ++ "'"))
      end
  | PNone | PList _ | PDict _ =>
      inl (TypeError ("float() argument must be a string or a real number, not '"
                      ++ type_name v ++ "'"))
  end.

(* ================================================================== *)
(** * Bytes, [struct.pack] and the [wave] module                       *)
(* ================================================================== *)

Definition byte_of_Z (z : Z) : byte :=
  match Byte.of_N (Z.to_N (z mod 256)) with
  | Some b => b
  | None => x00
  end.

Definition Z_of_byte (b : byte) : Z := Z.of_N (Byte.to_N b).

(** The [n] low bytes of [z], least significant first (two's complement
    for a negative [z]). *)
Fixpoint le_bytes (n : nat) (z : Z) : list byte :=
  match n with
  | O => []
  | S n' => byte_of_Z z :: le_bytes n' (z / 256)
  end.

Fixpoint le_value (bs : list byte) : Z :=
  match bs with
  | [] => 0
  | b :: rest => Z_of_byte b + 256 * le_value rest
  end.

Definition struct_error (msg : string) : exn := Exn "struct.error" msg.

(** [struct.pack('<L', x)] and [struct.pack('<H', x)]. *)
Definition pack_L (x : Z) : result (list byte) :=
  if (0 <=? x) && (x <? 2 ^ 32) then inr (le_bytes 4 x)
  else inl (struct_error "'L' format requires 0 <= number <= 4294967295").

Definition pack_H (x : Z) : result (list byte) :=
  if (0 <=? x) && (x <? 2 ^ 16) then inr (le_bytes 2 x)
  else inl (struct_error "'H' format requires 0 <= number <= 65535").

Definition rbind {A B : Type} (c : result A) (k : A -> result B) : result B :=
  match c with
  | inl e => inl e
  | inr a => k a
  end.

Notation "x <~ c ;; k" := (rbind c (fun x => k))
  (at level 61, c at next level, right associativity).

(** [audio_int16.tobytes()]: two bytes a sample, little-endian. *)
Definition tobytes (samples : list Z) : list byte :=
  flat_map (le_bytes 2) samples.

Definition WAVE_FORMAT_PCM : Z := 1.

(** [Wave_write._write_header], with the ['RIFF'] tag and the data
    length that follow the one [struct.pack] call of the header. *)
Definition wave_header (nchannels sampwidth framerate datalength : Z)
  : result (list byte) :=
  riff_len <~ pack_L (36 + datalength) ;;
  fmt_len <~ pack_L 16 ;;
  tag <~ pack_H WAVE_FORMAT_PCM ;;
  nch <~ pack_H nchannels ;;
  rate <~ pack_L framerate ;;
  byte_rate <~ pack_L (nchannels * framerate * sampwidth) ;;
  block_align <~ pack_H (nchannels * sampwidth) ;;
  bits <~ pack_H (sampwidth * 8) ;;
  data_len <~ pack_L datalength ;;
  inr (list_byte_of_string "RIFF" ++ riff_len
       ++ list_byte_of_string "WAVE" ++ list_byte_of_string "fmt " ++ fmt_len
       ++ tag ++ nch ++ rate ++ byte_rate ++ block_align ++ bits
       ++ list_byte_of_string "data" ++ data_len)%list.

(** The 44 bytes that open a mono, 16-bit file. *)
Definition canonical_header (rate datalength : Z) : list byte :=
  (list_byte_of_string "RIFF" ++ le_bytes 4 (36 + datalength)
   ++ list_byte_of_string "WAVE" ++ list_byte_of_string "fmt " ++ le_bytes 4 16
   ++ le_bytes 2 1 ++ le_bytes 2 1 ++ le_bytes 4 rate ++ le_bytes 4 (1 * rate * 2)
   ++ le_bytes 2 2 ++ le_bytes 2 16
   ++ list_byte_of_string "data" ++ le_bytes 4 datalength)%list.

Definition wave_error (msg : string) : exn := Exn "wave.Error" msg.

(** [wave.open(buf, 'wb')], [setnchannels], [setsampwidth],
    [setframerate], one [writeframes(data)] and the close that leaves the
    [with] block: the bytes left in the buffer.  The header is written
    for the whole frames of [data] and patched when [data] ends in a
    partial frame. *)
Definition wave_write (nchannels sampwidth framerate : Z) (data : list byte)
  : result (list byte) :=
  if nchannels <? 1 then inl (wave_error "bad # of channels")
  else if (sampwidth <? 1) || (4 <? sampwidth) then inl (wave_error "bad sample width")
  else if framerate <=? 0 then inl (wave_error "bad frame rate")
  else
    let datawritten := Z.of_nat (List.length data) in
    let nframes := datawritten / (nchannels * sampwidth) in
    let datalength := nframes * nchannels * sampwidth in
    header <~ wave_header nchannels sampwidth framerate datalength ;;
    header <~ (if datalength =? datawritten then inr header
               else wave_header nchannels sampwidth framerate datawritten) ;;
    inr (header ++ data)%list.

(** ** Reading a WAV file back

    What [wave.open(buf, 'rb')] reports for a file made of a ['fmt ']
    chunk and a ['data'] chunk, and the 16-bit frames read from it as
    signed little-endian integers. *)
Record WavFile : Type := {
  wav_nchannels : Z;
  wav_sampwidth : Z;
  wav_framerate : Z;
  wav_nframes : Z;
  wav_samples : list Z
}.

Definition obind {A B : Type} (c : option A) (k : A -> option B) : option B :=
  match c with
  | Some a => k a
  | None => None
  end.

Notation "x <-? c ;; k" := (obind c (fun x => k))
  (at level 61, c at next level, right associativity).
Notation "' pat <-? c ;; k" := (obind c (fun x => match x with pat => k end))
  (at level 61, pat pattern, c at next level, right associativity).

Definition read_bytes (n : nat) (bs : list byte) : option (list byte * list byte) :=
  if (n <=? List.length bs)%nat then Some (firstn n bs, skipn n bs) else None.

Definition read_tag (tag : string) (bs : list byte) : option (list byte) :=
  '(t, rest) <-? read_bytes 4 bs ;;
  if list_eq_dec Byte.byte_eq_dec t (list_byte_of_string tag) then Some rest else None.

Definition read_uint (n : nat) (bs : list byte) : option (Z * list byte) :=
  '(t, rest) <-? read_bytes n bs ;; Some (le_value t, rest).

Definition int16_of_bytes (lo hi : byte) : Z :=
  let u := Z_of_byte lo + 256 * Z_of_byte hi in
  if 32768 <=? u then u - 65536 else u.

Fixpoint frombuffer_int16 (bs : list byte) : list Z :=
  match bs with
  | lo :: hi :: rest => int16_of_bytes lo hi :: frombuffer_int16 rest
  | _ => []
  end.

Definition wav_decode (bs : list byte) : option WavFile :=
  rest <-? read_tag "RIFF" bs ;;
  '(_, rest) <-? read_uint 4 rest ;;
  rest <-? read_tag "WAVE" rest ;;
  rest <-? read_tag "fmt " rest ;;
  '(fmt_len, rest) <-? read_uint 4 rest ;;
  '(tag, rest) <-? read_uint 2 rest ;;
  '(nchannels, rest) <-? read_uint 2 rest ;;
  '(framerate, rest) <-? read_uint 4 rest ;;
  '(_, rest) <-? read_uint 4 rest ;;
  '(_, rest) <-? read_uint 2 rest ;;
  '(bits, rest) <-? read_uint 2 rest ;;
  rest <-? read_tag "data" rest ;;
  '(data_len, rest) <-? read_uint 4 rest ;;
  '(data, _) <-? read_bytes (Z.to_nat data_len) rest ;;
  let sampwidth := (bits + 7) / 8 in
  if (fmt_len =? 16) && (tag =? WAVE_FORMAT_PCM) && (1 <=? nchannels)
     && (sampwidth =? 2) then
    Some {| wav_nchannels := nchannels;
            wav_sampwidth := sampwidth;
            wav_framerate := framerate;
            wav_nframes := data_len / (nchannels * sampwidth);
            wav_samples := frombuffer_int16 data |}
  else None.

(** The audio encoder of [synthesize] on its own: the conversion to
    16-bit integers and the WAV container around them. *)
Definition encode_wav (audio : list spec_float) (sample_rate : Z)
  : result (list byte) :=
  wave_write 1 2 sample_rate (tobytes (audio_to_int16 audio)).

(* ================================================================== *)
(** * The service                                                      *)
(* ================================================================== *)

(** The module-level names the handlers read. *)
Record Globals : Type := {
  DEFAULT_SPEED : spec_float;
  DEFAULT_VOICE : string;
  VOICE_MAP : list (string * string)
}.

(** Their values once the module is loaded. *)
Definition module_globals : Globals :=
  {| DEFAULT_SPEED := F64.one;
     DEFAULT_VOICE := "af_bella";
     VOICE_MAP :=
       [ ("af_bella", "af_bella");
         ("af_nicole", "af_nicole");
         ("af_sarah", "af_sarah");
         ("af_sky", "af_sky");
         ("am_adam", "am_adam");
         ("am_michael", "am_michael");
         ("bf_emma", "bf_emma");
         ("bf_isabella", "bf_isabella");
         ("bm", "bm") ] |}.

(** The external engine behind [kokoro.create(text, voice=v, speed=x)]:
    from its current state it returns the float32 samples and the sample
    rate, or raises, and moves to a new state. *)
Class Engine : Type := {
  engine_state : Type;
  create : value -> string -> spec_float -> engine_state ->
           result (list spec_float * Z) * engine_state
}.

(** One call of [kokoro.create], as a test double would record it. *)
Record Call : Type := {
  call_text : value;
  call_voice : string;
  call_speed : spec_float
}.

(** The process: the module globals, the loaded model and the calls made
    to it so far (oldest first). *)
Record World {E : Engine} : Type := {
  globals : Globals;
  kokoro : engine_state;
  calls : list Call
}.

Inductive Body : Type :=
| JsonBody (v : value)
| FileBody (bs : list byte)
| HtmlBody (s : string).

Record Response : Type := {
  status : Z;
  mimetype : string;
  headers : list (string * string);
  body : Body
}.

(** [jsonify(v)], and [return jsonify(v), code]. *)
Definition jsonify (v : value) : Response :=
  {| status := 200; mimetype := "application/json"; headers := []; body := JsonBody v |}.

Definition with_status (r : Response) (code : Z) : Response :=
  {| status := code; mimetype := mimetype r; headers := headers r; body := body r |}.

(** [send_file(buf, mimetype=m, ...)] on a request without conditions. *)
Definition send_file (bs : list byte) (m : string) : Response :=
  {| status := 200; mimetype := m; headers := []; body := FileBody bs |}.

(** [response.headers[k] = v]. *)
Definition set_header (k v : string) (r : Response) : Response :=
  {| status := status r;
     mimetype := mimetype r;
     headers := (filter (fun kv => negb (String.eqb (fst kv) k)) (headers r) ++ [(k, v)])%list;
     body := body r |}.

Definition header (k : string) (r : Response) : option string :=
  lookup k (headers r).

(** The [error] field of a JSON body, when it has one. *)
Definition error_field (r : Response) : option value :=
  match body r with
  | JsonBody (PDict kvs) => lookup "error" kvs
  | _ => None
  end.

Section Service.
Context {B : Builtins} {E : Engine}.

(** Computations that read the globals, call the engine and may raise. *)
Definition M (A : Type) : Type := World -> result A * World.

Definition ret {A : Type} (a : A) : M A := fun w => (inr a, w).

Definition bind {A B : Type} (c : M A) (k : A -> M B) : M B :=
  fun w =>
    match c w with
    | (inl e, w') => (inl e, w')
    | (inr a, w') => k a w'
    end.

Definition lift {A : Type} (c : result A) : M A := fun w => (c, w).

Definition read_globals : M Globals := fun w => (inr (globals w), w).

(** [try: body except Exception as e: handler]. *)
Definition try_except {A : Type} (body : M A) (handler : exn -> M A) : M A :=
  fun w =>
    match body w with
    | (inl e, w') => handler e w'
    | (inr a, w') => (inr a, w')
    end.

(** The call of the engine: it is logged, and the model moves on. *)
Definition logged (w : World) (st : engine_state) (c : Call) : World :=
  {| globals := globals w; kokoro := st; calls := (calls w ++ [c])%list |}.

Definition kokoro_create (text : value) (voice : string) (speed : spec_float)
  : M (list spec_float * Z) :=
  fun w =>
    let '(r, st) := create text voice speed (kokoro w) in
    (r, logged w st {| call_text := text; call_voice := voice; call_speed := speed |}).

Notation "x <- c ;; k" := (bind c (fun x => k))
  (at level 61, c at next level, right associativity).
Notation "' pat <- c ;; k" := (bind c (fun x => match x with pat => k end))
  (at level 61, pat pattern, c at next level, right associativity).

(** [GET /health] *)
Definition health : M Response :=
  ret (jsonify (PDict [("status", PStr "ok"); ("service", PStr "kokoro-tts")])).

(** [POST /synthesize]; [get_json] is what [request.get_json()] does on
    the request: the parsed body, or the exception raised for a body
    that is not JSON. *)
Definition synthesize (get_json : result value) : M Response :=
  try_except
    (data <- lift get_json ;;
     missing <- (if negb (truthy data) then ret true
                 else found <- lift (py_contains "text" data) ;; ret (negb found)) ;;
     if missing : bool then
       ret (with_status
              (jsonify (PDict [("error", PStr "Missing required field: text")])) 400)
     else
       text <- lift (py_getitem data "text") ;;
       g <- read_globals ;;
       voice <- lift (py_get data "voice" (PStr (DEFAULT_VOICE g))) ;;
       speed_value <- lift (py_get data "speed" (PFloat (DEFAULT_SPEED g))) ;;
       speed <- lift (py_float speed_value) ;;
       known <- lift (py_in_dict voice (VOICE_MAP g)) ;;
       if negb known then
         ret (with_status
                (jsonify (PDict [("error", PStr ("Invalid voice: " ++ py_str voice))])) 400)
       else
         voice_code <- lift (py_dict_getitem (VOICE_MAP g) voice) ;;
         '(audio, sample_rate) <- kokoro_create text voice_code speed ;;
         let audio_int16 := audio_to_int16 audio in
         wav_buffer <- lift (wave_write 1 2 sample_rate (tobytes audio_int16)) ;;
         duration <- lift (py_truediv (Z.of_nat (List.length audio)) sample_rate) ;;
         let response := send_file wav_buffer "audio/wav" in
         let response := set_header "X-Audio-Duration" (str_float duration) response in
         let response := set_header "X-Sample-Rate" (str_int sample_rate) response in
         ret response)
    (fun e => ret (with_status (jsonify (PDict [("error", PStr (exn_msg e))])) 500)).

(** [GET /voices] *)
Definition voices : M Response :=
  g <- read_globals ;;
  ret (jsonify (PDict [("voices", PList (map PStr (keys (VOICE_MAP g))));
                       ("default", PStr (DEFAULT_VOICE g))])).

(** ** The routes *)
Inductive Request : Type :=
| GET_health
| POST_synthesize (get_json : result value)
| GET_voices.

Definition route (req : Request) : M Response :=
  match req with
  | GET_health => health
  | POST_synthesize get_json => synthesize get_json
  | GET_voices => voices
  end.

(** Flask answers an exception that leaves a view with its own 500 page. *)
Definition internal_server_error : Response :=
  {| status := 500; mimetype := "text/html"; headers := [];
     body := HtmlBody "Internal Server Error" |}.

Definition serve (req : Request) (w : World) : Response * World :=
  match route req w with
  | (inr r, w') => (r, w')
  | (inl _, w') => (internal_server_error, w')
  end.

(** The world after a sequence of requests. *)
Fixpoint serve_all (reqs : list Request) (w : World) : World :=
  match reqs with
  | [] => w
  | req :: rest => serve_all rest (snd (serve req w))
  end.

(** The process as it starts: the module loaded, no call made yet. *)
Definition boot (model : engine_state) : World :=
  {| globals := module_globals; kokoro := model; calls := [] |}.

End Service.

(** ** Request bodies *)

(** A JSON object with the given fields as request body. *)
Definition json_request (fields : list (string * value)) : result value :=
  inr (PDict fields).

(** The body lacks the [text] field, or is no JSON object at all. *)
Definition lacks_text (get_json : result value) : bool :=
  match get_json with
  | inr (PDict kvs) => negb (is_some (lookup "text" kvs))
  | _ => true
  end.

(** The response carries a non-empty [error] text. *)
Definition has_error_text (r : Response) : bool :=
  match error_field r with
  | Some (PStr s) => negb (String.eqb s EmptyString)
  | _ => false
  end.

(** What the handler passes on for [voice] and [speed] when the body is
    the object [kvs]: the field, or the module default. *)
Definition voice_arg (kvs : list (string * value)) : value :=
  match lookup "voice" kvs with
  | Some v => v
  | None => PStr (DEFAULT_VOICE module_globals)
  end.

Definition speed_arg (kvs : list (string * value)) : value :=
  match lookup "speed" kvs with
  | Some v => v
  | None => PFloat (DEFAULT_SPEED module_globals)
  end.

(** The body [kvs] passes validation: it has [text], its speed converts
    to the float [speed], and its voice is the member of [VOICE_MAP] that
    maps to [code]. *)
Definition validated {B : Builtins} (kvs : list (string * value))
    (text : value) (code : string) (speed : spec_float) : Prop :=
  lookup "text" kvs = Some text /\
  py_float (speed_arg kvs) = inr speed /\
  exists s, voice_arg kvs = PStr s /\ lookup s (VOICE_MAP module_globals) = Some code.

(** A value [dict] membership can hash: anything but a list or a dict. *)
Definition hashable (v : value) : bool :=
  match v with
  | PList _ | PDict _ => false
  | _ => true
  end.

(** A member of the fixed voice set. *)
Definition is_voice (v : value) : bool :=
  match v with
  | PStr s => is_some (lookup s (VOICE_MAP module_globals))
  | _ => false
  end.

(** A computation that leaves the module globals as it found them. *)
Definition preserves_globals {E : Engine} {A : Type} (c : M A) : Prop :=
  forall w : World, globals (snd (c w)) = globals w.

(** ** The responses, in direct style *)

Definition error_response (msg : string) (code : Z) : Response :=
  with_status (jsonify (PDict [("error", PStr msg)])) code.

Definition audio_response {B : Builtins} (wav : list byte) (duration : spec_float)
    (sample_rate : Z) : Response :=
  set_header "X-Sample-Rate" (str_int sample_rate)
    (set_header "X-Audio-Duration" (str_float duration) (send_file wav "audio/wav")).

(** What [synthesize] answers once the engine has returned [r]: the
    encoding, the duration and the [except] clause. *)
Definition respond {B : Builtins} (r : result (list spec_float * Z)) : Response :=
  match r with
  | inl e => error_response (exn_msg e) 500
  | inr (audio, sample_rate) =>
      match encode_wav audio sample_rate with
      | inl e => error_response (exn_msg e) 500
      | inr wav =>
          match py_truediv (Z.of_nat (List.length audio)) sample_rate with
          | inl e => error_response (exn_msg e) 500
          | inr duration => audio_response wav duration sample_rate
          end
      end
  end.

(* ================================================================== *)
(** * Test doubles and sample data                                     *)
(* ================================================================== *)

Module Example.

(** 0.0, 0.5, -0.5, 1.0, -1.0 and 0.25 as float32. *)
Definition s_zero : spec_float := S754_zero false.
Definition s_half : spec_float := S754_finite false 8388608 (-24).
Definition s_minus_half : spec_float := S754_finite true 8388608 (-24).
Definition s_one : spec_float := S754_finite false 8388608 (-23).
Definition s_minus_one : spec_float := S754_finite true 8388608 (-23).
Definition s_quarter : spec_float := S754_finite false 8388608 (-25).

Definition known_samples : list spec_float :=
  [s_zero; s_half; s_minus_half; s_one; s_minus_one].

(** An interpreter that reads three float literals and prints a float
    as its mantissa and binary exponent. *)
Definition literals : Builtins :=
  {| float_of_str := fun s =>
       if String.eqb s "0.5" then Some (S754_finite false 4503599627370496 (-53))
       else if String.eqb s "1.0" then Some F64.one
       else if String.eqb s "2.0" then Some (F64.of_int 2)
       else None;
     str_float := fun x =>
       match x with
       | S754_zero s => if s then "-0.0" else "0.0"
       | S754_infinity s => if s then "-inf" else "inf"
       | S754_nan => "nan"
       | S754_finite s m e =>
           ((if s then "-" else EmptyString) ++ str_int (Zpos m) ++ "*2**" ++ str_int e)%string
       end |}.

(** An engine that answers every call with the five known samples at
    24000 Hz. *)
Definition recording : Engine :=
  {| engine_state := unit;
     create := fun _ _ _ st => (inr (known_samples, 24000), st) |}.

(** An engine that raises [RuntimeError(msg)] at every call. *)
Definition failing (msg : string) : Engine :=
  {| engine_state := unit;
     create := fun _ _ _ st => (inl (Exn "RuntimeError" msg), st) |}.

(** Request bodies. *)
Definition body_plain : list (string * value) :=
  [("text", PStr "hello")].

Definition body_unknown_voice : list (string * value) :=
  [("text", PStr "hello"); ("voice", PStr "robot")].

Definition body_bad_speed : list (string * value) :=
  [("text", PStr "hello"); ("voice", PStr "robot"); ("speed", PStr "fast")].

Definition body_empty_text : list (string * value) :=
  [("text", PStr EmptyString)].

Definition body_empty_text_unknown_voice : list (string * value) :=
  [("text", PStr EmptyString); ("voice", PStr "robot")].

End Example.

(* ================================================================== *)
(** * Vocabulary for the properties of the handlers                    *)
(* ================================================================== *)

Definition is_synthesize (req : Request) : bool :=
  match req with
  | POST_synthesize _ => true
  | _ => false
  end.

(** The number of [POST /synthesize] requests in a history. *)
Definition synthesize_count (reqs : list Request) : nat :=
  List.length (filter is_synthesize reqs).

(** The [voices] array of a JSON response. *)
Definition advertised (r : Response) : list value :=
  match body r with
  | JsonBody (PDict kvs) =>
      match lookup "voices" kvs with
      | Some (PList vs) => vs
      | _ => []
      end
  | _ => []
  end.

(** The body reaches the engine: it is a JSON object that passes
    validation. *)
Definition reaches_engine {B : Builtins} (get_json : result value) : Prop :=
  exists kvs text code speed,
    get_json = json_request kvs /\ validated kvs text code speed.

(** The string ["text"] as an element of a list. *)
Definition is_text (v : value) : bool :=
  match v with
  | PStr t => String.eqb t "text"
  | _ => false
  end.

Module Fixture.

(** An engine that answers every call with the given samples and
    rate. *)
Definition returning (audio : list spec_float) (rate : Z) : Engine :=
  {| engine_state := unit;
     create := fun _ _ _ st => (inr (audio, rate), st) |}.


Definition body_full : list (string * value) :=
  [("text", PInt 42); ("voice", PStr "bm"); ("speed", PFloat (F64.of_int 3))].

Definition body_integer_speed : list (string * value) :=
  [("text", PStr "hello"); ("speed", PInt 2)].

End Fixture.
(* ================================================================== *)
(** * Rounding of a binary32 product                                   *)
(* ================================================================== *)

Lemma iter_pos_nat {A} (f : A -> A) (p : positive) (x : A) :
  iter_pos f p x = Nat.iter (Pos.to_nat p) f x.
Proof.
  revert x; induction p as [p IH|p IH|]; intro x; simpl iter_pos.
  - rewrite !IH, Pos2Nat.inj_xI.
    replace (2 * Pos.to_nat p)%nat with (Pos.to_nat p + Pos.to_nat p)%nat by lia.
    rewrite <- Nat.iter_succ_r, <- Nat.iter_add. f_equal. lia.
  - rewrite !IH, Pos2Nat.inj_xO. simpl Nat.mul.
    rewrite Nat.add_0_r, Nat.iter_add. reflexivity.
  - reflexivity.
Qed.

Lemma shr_1_m (mrs : shr_record) :
  0 <= shr_m mrs -> shr_m (shr_1 mrs) = shr_m mrs / 2.
Proof.
  destruct mrs as [m r s]; simpl; intro Hm.
  destruct m as [|p|p]; try lia; [reflexivity|].
  destruct p as [p|p|]; simpl.
  - rewrite Pos2Z.inj_xI. apply Z.div_unique with 1; lia.
  - rewrite Pos2Z.inj_xO. apply Z.div_unique with 0; lia.
  - reflexivity.
Qed.

Lemma shr_iter_m (n : nat) (mrs : shr_record) :
  0 <= shr_m mrs ->
  shr_m (Nat.iter n shr_1 mrs) = shr_m mrs / 2 ^ Z.of_nat n.
Proof.
  intro Hm. induction n as [|n IH].
  - simpl. now rewrite Z.div_1_r.
  - rewrite Nat2Z.inj_succ, Z.pow_succ_r by lia. simpl Nat.iter.
    rewrite shr_1_m.
    + rewrite IH, Z.div_div by lia. f_equal. lia.
    + rewrite IH. apply Z.div_pos; lia.
Qed.

Lemma digits2_pos_bounds (p : positive) :
  2 ^ (Zpos (digits2_pos p) - 1) <= Zpos p < 2 ^ Zpos (digits2_pos p).
Proof.
  induction p as [p IH|p IH|]; simpl digits2_pos;
    [rewrite Pos2Z.inj_succ | rewrite Pos2Z.inj_succ | simpl; lia];
    replace (Z.succ (Zpos (digits2_pos p)) - 1)
      with (Z.succ (Zpos (digits2_pos p) - 1)) by lia;
    rewrite !Z.pow_succ_r by lia;
    generalize dependent (2 ^ (Zpos (digits2_pos p) - 1));
    generalize dependent (2 ^ Zpos (digits2_pos p)); intros; lia.
Qed.

Lemma Zdigits2_le (m k : Z) :
  0 <= m -> 0 <= k -> m < 2 ^ k -> Zdigits2 m <= k.
Proof.
  intros Hm Hk Hlt. destruct m as [|p|p]; simpl; try lia.
  destruct (digits2_pos_bounds p) as [Hlo _].
  destruct (Z_le_gt_dec (Zpos (digits2_pos p)) k) as [|Hgt]; [assumption|].
  exfalso. assert (2 ^ k <= 2 ^ (Zpos (digits2_pos p) - 1)) by (apply Z.pow_le_mono_r; lia).
  lia.
Qed.

Lemma round_nearest_even_range (m : Z) (l : location) :
  m <= round_nearest_even m l <= m + 1.
Proof.
  destruct l as [|[| |]]; simpl; try lia. destruct (Z.even m); lia.
Qed.

(** What [shr] leaves of a non-negative mantissa: the quotient by the
    power of two it shifts out, at the exponent raised by as much. *)
Lemma shr_m_e (mrs : shr_record) (e n : Z) :
  0 <= shr_m mrs ->
  shr_m (fst (shr mrs e n)) = shr_m mrs / 2 ^ Z.max 0 n /\
  snd (shr mrs e n) = e + Z.max 0 n.
Proof.
  intro Hm. destruct n as [|p|p]; simpl.
  - rewrite Z.div_1_r. lia.
  - rewrite iter_pos_nat, shr_iter_m, positive_nat_Z by assumption.
    split; [reflexivity|lia].
  - rewrite Z.div_1_r. lia.
Qed.

Ltac pow2 :=
  first [ apply Z.pow_pos_nonneg; lia | apply Z.pow_nonzero; lia | lia ].

Lemma shiftl_neg_div (m e : Z) : e <= 0 -> Z.shiftl m e = m / 2 ^ (- e).
Proof.
  intro He. rewrite <- (Z.opp_involutive e) at 1.
  rewrite Z.shiftl_opp_r. apply Z.shiftr_div_pow2. lia.
Qed.

Lemma div_pow2_lt (m a n : Z) :
  0 <= n <= a -> m < 2 ^ a -> m / 2 ^ n < 2 ^ (a - n).
Proof.
  intros Hn Hm. apply Z.div_lt_upper_bound; [apply Z.pow_pos_nonneg; lia|].
  rewrite <- Z.pow_add_r by lia. now replace (n + (a - n)) with a by lia.
Qed.

Section RoundTrunc.
Variables prec emax : Z.
Hypothesis Hprec : 0 < prec <= emax.
Hypothesis Hemin : 3 - emax - prec <= -1.

  (** Rounding a positive number below [2 ^ (prec - 1)] that has a negative
      exponent, and then dropping the fraction: the integer obtained is
      the floor of the exact number, or that floor plus one. *)
Lemma binary_round_aux_trunc (sx : bool) (M : positive) (E : Z) :
    E <= -1 ->
    Zpos M < 2 ^ (prec - 1 - E) ->
    exists T : Z,
      SFtrunc (binary_round_aux prec emax sx (Zpos M) E loc_Exact)
        = Some (cond_Zopp sx T) /\
      Zpos M / 2 ^ (- E) <= T /\
      T * 2 ^ (- E) < Zpos M + 2 ^ (- E).
Proof.
    intros HE HM.
    assert (HdM : Zdigits2 (Zpos M) + E <= prec - 1).
    { assert (Zdigits2 (Zpos M) <= prec - 1 - E) by (apply Zdigits2_le; lia). lia. }
    unfold binary_round_aux, shr_fexp.
    set (n1 := fexp prec emax (Zdigits2 (Zpos M) + E) - E).
    destruct (shr_m_e (shr_record_of_loc (Zpos M) loc_Exact) E n1) as [Hm1 He1];
      [simpl; lia|].
    destruct (shr (shr_record_of_loc (Zpos M) loc_Exact) E n1) as [mrs1 e1].
    simpl in Hm1, He1.
    set (N1 := Z.max 0 n1) in *.
    set (m' := round_nearest_even (shr_m mrs1) (loc_of_shr_record mrs1)).
    assert (Hm' : shr_m mrs1 <= m' <= shr_m mrs1 + 1) by apply round_nearest_even_range.
    assert (HN1 : 0 <= N1) by (unfold N1; lia).
    assert (Hm1pos : 0 <= shr_m mrs1)
      by (rewrite Hm1; apply Z.div_pos; [lia | apply Z.pow_pos_nonneg; lia]).
    assert (He1' : e1 <= -1).
    { subst e1. unfold N1, n1, fexp, emin. lia. }
    assert (Hm1lt : shr_m mrs1 < 2 ^ (prec - 1 - e1)).
    { rewrite Hm1. replace (prec - 1 - e1) with (prec - 1 - E - N1) by lia.
      apply div_pow2_lt; lia. }
    assert (Hd' : Zdigits2 m' + e1 <= prec).
    { assert (Zdigits2 m' <= prec - e1); [|lia].
      apply Zdigits2_le; try lia.
      replace (prec - e1) with (Z.succ (prec - 1 - e1)) by lia.
      rewrite Z.pow_succ_r by lia. lia. }
    set (n2 := fexp prec emax (Zdigits2 m' + e1) - e1).
    destruct (shr_m_e (shr_record_of_loc m' loc_Exact) e1 n2) as [Hm2 He2];
      [simpl; lia|].
    destruct (shr (shr_record_of_loc m' loc_Exact) e1 n2) as [mrs2 e2].
    simpl in Hm2, He2.
    set (N2 := Z.max 0 n2) in *.
    assert (HN2 : 0 <= N2) by (unfold N2; lia).
    assert (He2' : e2 <= 0).
    { subst e2. unfold N2, n2, fexp, emin. lia. }
    set (k := - e1).
    assert (Hk : 1 <= k) by (unfold k; lia).
    assert (Hsplit : m' / 2 ^ k = shr_m mrs2 / 2 ^ (- e2)).
    { rewrite Hm2, Z.div_div by pow2.
      rewrite <- Z.pow_add_r by lia. f_equal. f_equal. unfold k. lia. }
    exists (m' / 2 ^ k). split; [|split].
    - destruct (shr_m mrs2) as [|q|q] eqn:Hq.
      + simpl. rewrite Hsplit, Z.div_0_l by (apply Z.pow_nonzero; lia).
        now destruct sx.
      + replace (e2 <=? emax - prec) with true by (symmetry; apply Z.leb_le; lia).
        simpl. now rewrite Hsplit, shiftl_neg_div.
      + exfalso. assert (0 <= m' / 2 ^ N2)
          by (apply Z.div_pos; [lia | apply Z.pow_pos_nonneg; lia]). lia.
    - replace (- E) with (N1 + k) by (unfold k; lia).
      rewrite Z.pow_add_r, <- Z.div_div, <- Hm1 by pow2.
      apply Z.div_le_mono; [apply Z.pow_pos_nonneg|]; lia.
    - replace (- E) with (N1 + k) by (unfold k; lia).
      rewrite Z.pow_add_r by lia.
      assert (HA : 0 < 2 ^ N1) by (apply Z.pow_pos_nonneg; lia).
      assert (HB : 2 <= 2 ^ k).
      { change 2 with (2 ^ 1) at 1. apply Z.pow_le_mono_r; lia. }
      assert (H1 : m' / 2 ^ k * 2 ^ k <= m')
        by (rewrite Z.mul_comm; apply Z.mul_div_le; lia).
      assert (H2 : shr_m mrs1 * 2 ^ N1 <= Zpos M)
        by (rewrite Hm1, Z.mul_comm; apply Z.mul_div_le; lia).
      generalize dependent (2 ^ N1). generalize dependent (2 ^ k).
      generalize dependent (m' / 2 ^ k). intros. nia.
Qed.
End RoundTrunc.

(* ================================================================== *)
(** * Samples in [-1, 1]                                               *)
(* ================================================================== *)

(** [SFleb] on two finite floats of one sign orders them by exponent,
    then by mantissa. *)
Lemma SFleb_finite_pos (m1 m2 : positive) (e1 e2 : Z) :
  SFleb (S754_finite false m1 e1) (S754_finite false m2 e2) = true ->
  e1 < e2 \/ (e1 = e2 /\ Zpos m1 <= Zpos m2).
Proof.
  unfold SFleb, SFcompare.
  destruct (Z.compare_spec e1 e2) as [Heq|Hlt|Hgt]; intro Hle;
    [right; split; [exact Heq|] | left; exact Hlt | discriminate Hle].
  apply Pos2Z.pos_le_pos. intro Hc.
  change (Pos.compare_cont Eq m1 m2) with (m1 ?= m2)%positive in Hle.
  rewrite Hc in Hle. discriminate Hle.
Qed.

Lemma SFleb_finite_neg (m1 m2 : positive) (e1 e2 : Z) :
  SFleb (S754_finite true m1 e1) (S754_finite true m2 e2) = true ->
  e2 < e1 \/ (e1 = e2 /\ Zpos m2 <= Zpos m1).
Proof.
  unfold SFleb, SFcompare.
  destruct (Z.compare_spec e1 e2) as [Heq|Hlt|Hgt]; intro Hle;
    [right; split; [exact Heq|] | discriminate Hle | left; exact Hgt].
  apply Pos2Z.pos_le_pos, Pos.ge_le. intro Hc.
  change (Pos.compare_cont Eq m1 m2) with (m1 ?= m2)%positive in Hle.
  rewrite Hc in Hle. discriminate Hle.
Qed.

Lemma unit_sample_finite (sx : bool) (m : positive) (e : Z) :
  unit_sample (S754_finite sx m e) = true ->
  e <= -23 /\ Zpos m <= 2 ^ (- e).
Proof.
  unfold unit_sample, F32.valid, valid_binary, bounded, canonical_mantissa.
  change F32.one with (S754_finite false 8388608 (-23)).
  intro Hu.
  apply andb_prop in Hu as [Hu Hhi]. apply andb_prop in Hu as [Hv Hlo].
  apply andb_prop in Hv as [Hcanon _]. apply Z.eqb_eq in Hcanon.
  unfold fexp, emin, F32.prec, F32.emax in Hcanon.
  change (SFopp (S754_finite false 8388608 (-23)))
    with (S754_finite true 8388608 (-23)) in Hlo.
  assert (He : e < -23 \/ (e = -23 /\ Zpos m <= 8388608)).
  { destruct sx.
    - apply SFleb_finite_neg in Hlo. clear Hhi. lia.
    - apply SFleb_finite_pos in Hhi. clear Hlo. lia. }
  clear Hlo Hhi.
  destruct (digits2_pos_bounds m) as [_ Hm].
  assert (Hm24 : Zpos m < 2 ^ 24).
  { eapply Z.lt_le_trans; [exact Hm|]. apply Z.pow_le_mono_r; lia. }
  destruct He as [He|[He Hle]].
  - split; [lia|]. apply Z.lt_le_incl. eapply Z.lt_le_trans; [exact Hm24|].
    apply Z.pow_le_mono_r; lia.
  - subst e. split; [lia|]. change (2 ^ (- -23)) with 8388608. lia.
Qed.

Lemma product_trunc (sx : bool) (m : positive) (e : Z) :
  unit_sample (S754_finite sx m e) = true ->
  exists T : Z,
    SFtrunc (F32.mul (S754_finite sx m e) (F32.of_int 32767))
      = Some (cond_Zopp sx T) /\
    0 <= T <= 32767 /\
    32767 * Zpos m - 2 ^ (- e) < T * 2 ^ (- e) < 32767 * Zpos m + 2 ^ (- e).
Proof.
  intro Hu. destruct (unit_sample_finite _ _ _ Hu) as [He Hm].
  change (F32.of_int 32767) with (S754_finite false 16776704 (-9)).
  unfold F32.mul, SFmul. rewrite xorb_false_r.
  assert (HD : 0 < 2 ^ (- e)) by pow2.
  destruct (binary_round_aux_trunc F32.prec F32.emax ltac:(unfold F32.prec, F32.emax; lia)
              ltac:(unfold F32.prec, F32.emax; lia) sx (m * 16776704) (e + -9))
    as (T & HT & Hlo & Hhi).
  - lia.
  - rewrite Pos2Z.inj_mul. unfold F32.prec.
    replace (24 - 1 - (e + -9)) with (- e + 32) by lia.
    rewrite Z.pow_add_r by lia. change (2 ^ 32) with 4294967296.
    generalize dependent (2 ^ (- e)). intros; nia.
  - exists T. split; [exact HT|].
    replace (- (e + -9)) with (- e + 9) in Hlo, Hhi by lia.
    rewrite Z.pow_add_r in Hlo, Hhi by lia.
    change (2 ^ 9) with 512 in Hlo, Hhi. rewrite Pos2Z.inj_mul in Hlo, Hhi.
    assert (Hgt : Zpos m * 16776704 < 2 ^ (- e) * 512 * Z.succ T).
    { eapply Z.lt_le_trans; [apply (Z.mul_succ_div_gt _ (2 ^ (- e) * 512)); lia|].
      apply Z.mul_le_mono_nonneg_l; lia. }
    assert (HT0 : 0 <= T).
    { eapply Z.le_trans; [|exact Hlo]. apply Z.div_pos; lia. }
    generalize dependent (2 ^ (- e)). intros; nia.
Qed.

Lemma wrap_int16_id (z : Z) : -32768 <= z < 32768 -> wrap_int16 z = z.
Proof. intro Hz. unfold wrap_int16. rewrite Z.mod_small; lia. Qed.

Lemma cond_Zopp_mul (s : bool) (a b : Z) : cond_Zopp s a * b = cond_Zopp s (a * b).
Proof. destruct s; simpl; lia. Qed.

(** The cast drops the fraction of the number the float stands for. *)
Lemma SFtrunc_Qtrunc (x : spec_float) (z : Z) :
  SFtrunc x = Some z -> z = Qtrunc (SF2Q x).
Proof.
  destruct x as [s|s| |s m e]; simpl; intro Hx; inversion Hx; subst; clear Hx; try reflexivity.
  unfold Qtrunc. destruct e as [|p|p].
  - simpl Qnum. simpl Qden. rewrite Z.quot_1_r, Z.mul_1_r. reflexivity.
  - cbn [SF2Q inject_Z Qnum Qden]. rewrite Z.quot_1_r, Z.shiftl_mul_pow2 by lia.
    symmetry. apply cond_Zopp_mul.
  - cbn [SF2Q Qnum Qden]. rewrite Pos2Z.inj_pow.
    rewrite shiftl_neg_div by lia. change (- Zneg p) with (Zpos p).
    assert (0 < 2 ^ Zpos p) by pow2.
    destruct s; simpl cond_Zopp.
    + change (Zneg m) with (- Zpos m). rewrite Z.quot_opp_l by lia.
      rewrite Z.quot_div_nonneg by lia. reflexivity.
    + rewrite Z.quot_div_nonneg by lia. reflexivity.
Qed.

Lemma unit_sample_cases (s : spec_float) :
  unit_sample s = true ->
  (exists b, s = S754_zero b) \/ (exists sx m e, s = S754_finite sx m e).
Proof.
  destruct s as [b|b| |sx m e]; intro Hu.
  - left; eauto.
  - destruct b; discriminate Hu.
  - discriminate Hu.
  - right; eauto.
Qed.

(** A sample in [-1, 1] is cast without wrap-around. *)
Lemma sample_no_wrap (s : spec_float) :
  unit_sample s = true ->
  SFtrunc (F32.mul s (F32.of_int 32767)) = Some (sample_to_int16 s) /\
  -32767 <= sample_to_int16 s <= 32767.
Proof.
  intro Hu. destruct (unit_sample_cases s Hu) as [[b ->]|(sx & m & e & ->)].
  - destruct b; vm_compute; intuition discriminate.
  - destruct (product_trunc sx m e Hu) as (T & HT & HTr & _).
    unfold sample_to_int16, astype_int16. rewrite HT.
    assert (Hc : -32767 <= cond_Zopp sx T <= 32767) by (destruct sx; simpl; lia).
    rewrite wrap_int16_id by lia. split; [reflexivity|exact Hc].
Qed.

(** ... and lands less than one step away from the exact product. *)
Lemma sample_error (s : spec_float) :
  unit_sample s = true ->
  (Qabs (inject_Z (sample_to_int16 s) / 32767 - SF2Q s) <= 1 # 32767)%Q.
Proof.
  intro Hu. destruct (unit_sample_cases s Hu) as [[b ->]|(sx & m & e & ->)].
  - destruct b; vm_compute; discriminate.
  - destruct (product_trunc sx m e Hu) as (T & HT & HTr & Herr).
    destruct (sample_no_wrap _ Hu) as [Hv _]. rewrite HT in Hv.
    injection Hv as Hv. rewrite <- Hv.
    destruct (unit_sample_finite _ _ _ Hu) as [He _].
    destruct e as [|p|p]; try lia.
    change (- Zneg p) with (Zpos p) in Herr. rewrite <- Pos2Z.inj_pow in Herr.
    cbn [SF2Q]. generalize dependent (2 ^ p)%positive. intros d Herr.
    unfold Qle, Qabs, Qminus, Qplus, Qopp, Qdiv, Qmult, Qinv, inject_Z.
    cbn [Qnum Qden]. 
    destruct sx; simpl cond_Zopp; lia.
Qed.

(* ================================================================== *)
(** * Bytes and the WAV container                                      *)
(* ================================================================== *)

Lemma Z_of_byte_of_Z (z : Z) : Z_of_byte (byte_of_Z z) = z mod 256.
Proof.
  unfold Z_of_byte, byte_of_Z.
  assert (Hr : 0 <= z mod 256 < 256) by (apply Z.mod_pos_bound; lia).
  pose proof (Byte.to_of_N_option_map (Z.to_N (z mod 256))) as Hb.
  replace (Z.to_N (z mod 256) <=? 255)%N with true in Hb
    by (symmetry; apply N.leb_le; lia).
  destruct (Byte.of_N (Z.to_N (z mod 256))) as [b|]; [|discriminate Hb].
  simpl in Hb. injection Hb as Hb. rewrite Hb. lia.
Qed.

Lemma le_bytes_length (n : nat) (z : Z) : List.length (le_bytes n z) = n.
Proof. revert z; induction n as [|n IH]; intro z; simpl; [reflexivity|now rewrite IH]. Qed.

Lemma le_value_le_bytes (n : nat) (z : Z) :
  le_value (le_bytes n z) = z mod 256 ^ Z.of_nat n.
Proof.
  revert z; induction n as [|n IH]; intro z.
  - simpl. now rewrite Z.mod_1_r.
  - cbn [le_bytes le_value]. rewrite Z_of_byte_of_Z, IH.
    rewrite Nat2Z.inj_succ, Z.pow_succ_r by lia.
    symmetry. apply Z.rem_mul_r; [lia|pow2].
Qed.

Lemma read_bytes_app (pre rest : list byte) :
  read_bytes (List.length pre) (pre ++ rest) = Some (pre, rest).
Proof.
  unfold read_bytes. rewrite length_app.
  replace (List.length pre <=? List.length pre + List.length rest)%nat with true
    by (symmetry; apply Nat.leb_le; lia).
  rewrite firstn_app, skipn_app, Nat.sub_diag, firstn_all, skipn_all. simpl.
  now rewrite app_nil_r.
Qed.

Lemma read_uint_app (n : nat) (z : Z) (rest : list byte) :
  0 <= z < 256 ^ Z.of_nat n ->
  read_uint n (le_bytes n z ++ rest) = Some (z, rest).
Proof.
  intro Hz. unfold read_uint.
  rewrite <- (le_bytes_length n z) at 1. rewrite read_bytes_app. simpl.
  rewrite le_value_le_bytes, Z.mod_small by lia. reflexivity.
Qed.

Lemma read_tag_app (tag : string) (rest : list byte) :
  List.length (list_byte_of_string tag) = 4%nat ->
  read_tag tag (list_byte_of_string tag ++ rest) = Some rest.
Proof.
  intro Hlen. unfold read_tag. rewrite <- Hlen, read_bytes_app. simpl.
  destruct (list_eq_dec _ _ _) as [_|Hne]; [reflexivity|now elim Hne].
Qed.

Lemma int16_of_le_bytes (v : Z) :
  -32768 <= v < 32768 ->
  match le_bytes 2 v with
  | [lo; hi] => int16_of_bytes lo hi = v
  | _ => False
  end.
Proof.
  intro Hv. pose proof (le_value_le_bytes 2 v) as Hval.
  cbn [le_bytes] in *. cbn [le_value] in Hval.
  unfold int16_of_bytes. rewrite Z.mul_0_r, Z.add_0_r in Hval. rewrite Hval.
  change (256 ^ Z.of_nat 2) with 65536.
  destruct (Z.leb_spec 32768 (v mod 65536)) as [Hge|Hlt].
  - assert (v < 0).
    { destruct (Z_lt_ge_dec v 0); [assumption|]. rewrite Z.mod_small in Hge; lia. }
    rewrite <- (Z.mod_add v 1 65536) by lia. rewrite Z.mod_small; lia.
  - assert (0 <= v).
    { destruct (Z_lt_ge_dec v 0); [|lia].
      rewrite <- (Z.mod_add v 1 65536) in Hlt by lia. rewrite Z.mod_small in Hlt; lia. }
    rewrite Z.mod_small; lia.
Qed.

Lemma frombuffer_tobytes (vs : list Z) :
  Forall (fun v => -32768 <= v < 32768) vs ->
  frombuffer_int16 (tobytes vs) = vs.
Proof.
  induction 1 as [|v vs Hv _ IH]; [reflexivity|].
  unfold tobytes. cbn [flat_map]. fold (tobytes vs).
  pose proof (int16_of_le_bytes v Hv) as Hb.
  destruct (le_bytes 2 v) as [|lo [|hi [|x l]]]; try contradiction.
  cbn [app frombuffer_int16]. now rewrite Hb, IH.
Qed.

Lemma tobytes_length (vs : list Z) :
  List.length (tobytes vs) = (2 * List.length vs)%nat.
Proof.
  induction vs as [|v vs IH]; [reflexivity|].
  unfold tobytes. cbn [flat_map]. fold (tobytes vs).
  rewrite length_app, le_bytes_length, IH. simpl. lia.
Qed.

Lemma pack_L_inv (x : Z) (bs : list byte) :
  pack_L x = inr bs -> 0 <= x < 2 ^ 32 /\ bs = le_bytes 4 x.
Proof.
  unfold pack_L. destruct (Z.leb_spec 0 x); destruct (Z.ltb_spec x (2 ^ 32));
    simpl; intro Hp; inversion Hp; subst; split; auto; lia.
Qed.

Lemma pack_L_ok (x : Z) : 0 <= x < 2 ^ 32 -> pack_L x = inr (le_bytes 4 x).
Proof.
  intro Hx. unfold pack_L.
  destruct (Z.leb_spec 0 x); destruct (Z.ltb_spec x (2 ^ 32)); simpl; try lia; reflexivity.
Qed.

Lemma wave_header_ok (rate dl : Z) :
  0 <= dl -> 36 + dl < 2 ^ 32 -> 0 <= rate -> 2 * rate < 2 ^ 32 ->
  wave_header 1 2 rate dl = inr (canonical_header rate dl).
Proof.
  intros. unfold wave_header, canonical_header.
  rewrite (pack_L_ok (36 + dl)), (pack_L_ok 16), (pack_L_ok rate),
    (pack_L_ok (1 * rate * 2)), (pack_L_ok dl)
    by (change (2 ^ 32) with 4294967296 in *; lia).
  reflexivity.
Qed.

Lemma wave_header_inv (rate dl : Z) (h : list byte) :
  wave_header 1 2 rate dl = inr h ->
  (0 <= dl /\ 36 + dl < 2 ^ 32 /\ 0 <= rate /\ 2 * rate < 2 ^ 32) /\
  h = canonical_header rate dl.
Proof.
  intro Hh.
  assert (Hb : 0 <= dl /\ 36 + dl < 2 ^ 32 /\ 0 <= rate /\ 2 * rate < 2 ^ 32).
  { unfold wave_header in Hh.
    destruct (pack_L (36 + dl)) as [|b1] eqn:H1; [discriminate|].
    destruct (pack_L 16) as [|b2] eqn:H2; [discriminate|].
    cbn [rbind] in Hh.
    destruct (pack_H WAVE_FORMAT_PCM) as [|b3]; [discriminate|].
    destruct (pack_H 1) as [|b4]; [discriminate|]. cbn [rbind] in Hh.
    destruct (pack_L rate) as [|b5] eqn:H5; [discriminate|].
    destruct (pack_L (1 * rate * 2)) as [|b6] eqn:H6; [discriminate|].
    cbn [rbind] in Hh.
    destruct (pack_H (1 * 2)) as [|b7]; [discriminate|].
    destruct (pack_H (2 * 8)) as [|b8]; [discriminate|]. cbn [rbind] in Hh.
    destruct (pack_L dl) as [|b9] eqn:H9; [discriminate|].
    apply pack_L_inv in H1, H5, H6, H9. lia. }
  split; [exact Hb|].
  rewrite wave_header_ok in Hh by tauto. now injection Hh.
Qed.

Lemma read_bytes_all (bs : list byte) :
  read_bytes (List.length bs) bs = Some (bs, []).
Proof. rewrite <- (app_nil_r bs) at 2. apply read_bytes_app. Qed.

Ltac uint_bound :=
  first [ change (256 ^ Z.of_nat 4) with 4294967296
        | change (256 ^ Z.of_nat 2) with 65536 ];
  change (2 ^ 32) with 4294967296 in *; lia.

Lemma wav_decode_canonical (rate : Z) (data : list byte) :
  0 <= rate -> 2 * rate < 2 ^ 32 ->
  36 + Z.of_nat (List.length data) < 2 ^ 32 ->
  wav_decode (canonical_header rate (Z.of_nat (List.length data)) ++ data) =
    Some {| wav_nchannels := 1;
            wav_sampwidth := 2;
            wav_framerate := rate;
            wav_nframes := Z.of_nat (List.length data) / 2;
            wav_samples := frombuffer_int16 data |}.
Proof.
  intros Hr Hr2 Hlen. unfold wav_decode, canonical_header.
  rewrite <- !app_assoc.
  repeat (first [ rewrite read_tag_app by reflexivity
                | rewrite read_uint_app by uint_bound ];
          cbn [obind]).
  rewrite Nat2Z.id, read_bytes_all. cbn [obind]. reflexivity.
Qed.
Lemma audio_to_int16_range (audio : list spec_float) :
  Forall (fun s => unit_sample s = true) audio ->
  Forall (fun v => -32768 <= v < 32768) (audio_to_int16 audio).
Proof.
  induction 1 as [|s audio Hs _ IH]; constructor; [|exact IH].
  destruct (sample_no_wrap s Hs) as [_ Hr]. lia.
Qed.

Lemma encode_wav_length (audio : list spec_float) :
  Z.of_nat (List.length (tobytes (audio_to_int16 audio)))
    = 2 * Z.of_nat (List.length audio).
Proof. unfold audio_to_int16. rewrite tobytes_length, length_map. lia. Qed.

(** The encoder either fails in the header or leaves the canonical
    header followed by the frames. *)
Lemma encode_wav_inv (audio : list spec_float) (rate : Z) (bytes : list byte) :
  encode_wav audio rate = inr bytes ->
  (0 < rate /\ 2 * rate < 2 ^ 32 /\ 36 + 2 * Z.of_nat (List.length audio) < 2 ^ 32) /\
  bytes = canonical_header rate (2 * Z.of_nat (List.length audio))
            ++ tobytes (audio_to_int16 audio).
Proof.
  unfold encode_wav, wave_write. cbn [Z.ltb Z.compare orb].
  destruct (Z.leb_spec rate 0) as [|Hrate]; [discriminate|].
  rewrite encode_wav_length.
  replace (2 * Z.of_nat (List.length audio) / (1 * 2) * 1 * 2)
    with (2 * Z.of_nat (List.length audio))
    by (rewrite Z.mul_comm, Z.div_mul; lia).
  rewrite Z.eqb_refl.
  destruct (wave_header 1 2 rate (2 * Z.of_nat (List.length audio))) as [e|h] eqn:Hh;
    [discriminate|].
  cbn [rbind]. intro Hb. injection Hb as <-.
  apply wave_header_inv in Hh as [Hbounds ->]. split; [lia|reflexivity].
Qed.

Lemma encode_wav_ok (audio : list spec_float) (rate : Z) :
  0 < rate -> 2 * rate < 2 ^ 32 ->
  36 + 2 * Z.of_nat (List.length audio) < 2 ^ 32 ->
  encode_wav audio rate
    = inr (canonical_header rate (2 * Z.of_nat (List.length audio))
           ++ tobytes (audio_to_int16 audio)).
Proof.
  intros Hr Hr2 Hlen. unfold encode_wav, wave_write. cbn [Z.ltb Z.compare orb].
  destruct (Z.leb_spec rate 0) as [|_]; [lia|].
  rewrite encode_wav_length.
  replace (2 * Z.of_nat (List.length audio) / (1 * 2) * 1 * 2)
    with (2 * Z.of_nat (List.length audio))
    by (rewrite Z.mul_comm, Z.div_mul; lia).
  rewrite Z.eqb_refl, wave_header_ok by lia. reflexivity.
Qed.

Lemma encode_wav_decode (audio : list spec_float) (rate : Z) (bytes : list byte) :
  Forall (fun s => unit_sample s = true) audio ->
  encode_wav audio rate = inr bytes ->
  wav_decode bytes =
    Some {| wav_nchannels := 1;
            wav_sampwidth := 2;
            wav_framerate := rate;
            wav_nframes := Z.of_nat (List.length audio);
            wav_samples := audio_to_int16 audio |}.
Proof.
  intros Hu He. apply encode_wav_inv in He as [(Hr & Hr2 & Hlen) ->].
  rewrite <- encode_wav_length.
  rewrite wav_decode_canonical by (rewrite ?encode_wav_length; lia).
  rewrite frombuffer_tobytes by (apply audio_to_int16_range, Hu).
  rewrite encode_wav_length. do 2 f_equal.
  rewrite Z.mul_comm. apply Z.div_mul. lia.
Qed.

(* ================================================================== *)
(** * The audio encoder                                                *)
(* ================================================================== *)

(** C1, as amended: a float32 sample in [-1.0, 1.0] maps to its float32
    product with 32767 with the fraction dropped, that is truncated
    toward zero and not rounded to nearest; the integer lies in
    [-32767, 32767], so that nothing is saturated or wrapped. *)
Theorem C1_sample_is_truncated (s : spec_float) :
  unit_sample s = true ->
  sample_to_int16 s = Qtrunc (SF2Q (F32.mul s (F32.of_int 32767))) /\
  -32767 <= sample_to_int16 s <= 32767.
Proof.
  intro Hu. destruct (sample_no_wrap s Hu) as [Ht Hr].
  split; [exact (SFtrunc_Qtrunc _ _ Ht)|exact Hr].
Qed.

(** C6: samples in [-1.0, 1.0] that are encoded at a rate and decoded
    again come back as a mono, 16-bit stream at that rate, as many as
    went in, each within one quantization step (1/32767) of its input.
    The encoding exists exactly when the rate is positive and the rate
    and the length fit the 32-bit fields of the header. *)
Theorem C6_wav_round_trip (audio : list spec_float) (rate : Z) :
  Forall (fun s => unit_sample s = true) audio ->
  ((exists bytes, encode_wav audio rate = inr bytes) <->
   0 < rate /\ 2 * rate < 2 ^ 32 /\ 36 + 2 * Z.of_nat (List.length audio) < 2 ^ 32) /\
  (forall bytes, encode_wav audio rate = inr bytes ->
   exists f,
     wav_decode bytes = Some f /\
     wav_nchannels f = 1 /\
     wav_sampwidth f = 2 /\
     wav_framerate f = rate /\
     wav_nframes f = Z.of_nat (List.length audio) /\
     List.length (wav_samples f) = List.length audio /\
     Forall2 (fun s v => (Qabs (inject_Z v / 32767 - SF2Q s) <= 1 # 32767)%Q)
             audio (wav_samples f)).
Proof.
  intro Hu. split.
  - split.
    + intros [bytes He]. apply encode_wav_inv in He. tauto.
    + intros (Hr & Hr2 & Hlen). eexists. apply encode_wav_ok; assumption.
  - intros bytes He. eexists. split; [exact (encode_wav_decode audio rate bytes Hu He)|].
    cbn [wav_nchannels wav_sampwidth wav_framerate wav_nframes wav_samples].
    repeat split.
    + unfold audio_to_int16. apply length_map.
    + clear He. unfold audio_to_int16.
      induction Hu as [|s audio Hs _ IH]; constructor; [|exact IH].
      apply sample_error, Hs.
Qed.

(* ================================================================== *)
(** * More on the encoder                                              *)
(* ================================================================== *)





Lemma canonical_header_length (rate dl : Z) :
  List.length (canonical_header rate dl) = 44%nat.
Proof.
  unfold canonical_header. rewrite !length_app, !le_bytes_length. reflexivity.
Qed.

(** X1: a successful encoding is the 44-byte canonical header of a mono,
    16-bit PCM file followed by two bytes for each sample, 44 + 2n bytes
    in all, whatever the samples are. *)
Theorem X1_encoding_layout (audio : list spec_float) (rate : Z) (bytes : list byte) :
  encode_wav audio rate = inr bytes ->
  bytes = canonical_header rate (2 * Z.of_nat (List.length audio))
            ++ tobytes (audio_to_int16 audio) /\
  List.length bytes = (44 + 2 * List.length audio)%nat /\
  firstn 4 bytes = list_byte_of_string "RIFF" /\
  firstn 8 (skipn 8 bytes) = list_byte_of_string "WAVEfmt ".
Proof.
  intro He. apply encode_wav_inv in He as [_ ->].
  split; [reflexivity|]. split.
  - rewrite length_app, canonical_header_length, tobytes_length.
    unfold audio_to_int16. rewrite length_map. reflexivity.
  - split; reflexivity.
Qed.



(** ** Negation *)

Lemma binary_round_aux_opp (prec emax : Z) (sx : bool) (m e : Z) (l : location) :
  binary_round_aux prec emax (negb sx) m e l
    = SFopp (binary_round_aux prec emax sx m e l).
Proof.
  unfold binary_round_aux.
  destruct (shr_fexp prec emax m e l) as [mrs1 e1].
  destruct (shr_fexp prec emax _ e1 loc_Exact) as [mrs2 e2].
  destruct (shr_m mrs2); try reflexivity.
  destruct (e2 <=? emax - prec); reflexivity.
Qed.

Lemma SFmul_opp_l (prec emax : Z) (x y : spec_float) :
  SFmul prec emax (SFopp x) y = SFopp (SFmul prec emax x y).
Proof.
  destruct x as [sx|sx| |sx mx ex], y as [sy|sy| |sy my ey]; simpl;
    try reflexivity; try (destruct sx, sy; reflexivity).
  rewrite <- binary_round_aux_opp. now destruct sx, sy.
Qed.

Lemma SFtrunc_opp (x : spec_float) :
  SFtrunc (SFopp x) = option_map Z.opp (SFtrunc x).
Proof.
  destruct x as [s|s| |s m e]; try reflexivity.
  destruct s; cbn [SFtrunc SFopp option_map cond_Zopp negb]; now rewrite ?Z.opp_involutive.
Qed.

Lemma SFcompare_opp (x y : spec_float) :
  SFcompare (SFopp x) (SFopp y) = SFcompare y x.
Proof.
  destruct x as [sx|sx| |sx mx ex], y as [sy|sy| |sy my ey]; simpl;
    try reflexivity; try (destruct sx, sy; reflexivity); try (destruct sx; reflexivity);
    try (destruct sy; reflexivity).
  change (Pos.compare_cont Eq mx my) with (mx ?= my)%positive.
  change (Pos.compare_cont Eq my mx) with (my ?= mx)%positive.
  rewrite (Z.compare_antisym ex ey), (Pos.compare_antisym mx my).
  destruct sx, sy; simpl; try reflexivity;
    destruct (ex ?= ey); simpl; try reflexivity.
  now rewrite CompOpp_involutive.
Qed.

Lemma SFleb_opp (x y : spec_float) : SFleb (SFopp x) (SFopp y) = SFleb y x.
Proof. unfold SFleb. now rewrite SFcompare_opp. Qed.

Lemma SFopp_involutive (x : spec_float) : SFopp (SFopp x) = x.
Proof. destruct x as [s|s| |s m e]; simpl; now rewrite ?negb_involutive. Qed.

Lemma unit_sample_opp (s : spec_float) : unit_sample (SFopp s) = unit_sample s.
Proof.
  unfold unit_sample.
  replace (F32.valid (SFopp s)) with (F32.valid s) by (now destruct s).
  rewrite SFleb_opp.
  rewrite <- (SFopp_involutive F32.one) at 2. rewrite SFleb_opp.
  destruct (F32.valid s); simpl; [apply andb_comm|reflexivity].
Qed.

(** X3: the conversion is odd: for a sample in [-1.0, 1.0], the negated
    sample is in [-1.0, 1.0] too and maps to the negated integer. *)
Theorem X3_sample_symmetry (s : spec_float) :
  unit_sample s = true ->
  unit_sample (SFopp s) = true /\
  sample_to_int16 (SFopp s) = - sample_to_int16 s.
Proof.
  intro Hu. assert (Hu' : unit_sample (SFopp s) = true) by now rewrite unit_sample_opp.
  split; [exact Hu'|].
  destruct (sample_no_wrap s Hu) as [Ht _].
  destruct (sample_no_wrap (SFopp s) Hu') as [Ht' _].
  unfold F32.mul in *. rewrite SFmul_opp_l, SFtrunc_opp, Ht in Ht'.
  simpl in Ht'. now injection Ht'.
Qed.

(** ** Integers as binary64 *)


Lemma iter_xO_value (p k : positive) :
  Zpos (Pos.iter xO p k) = Zpos p * 2 ^ Zpos k.
Proof.
  induction k as [|k IH] using Pos.peano_ind.
  - simpl. lia.
  - rewrite Pos.iter_succ, Pos2Z.inj_xO, IH, Pos2Z.inj_succ, Z.pow_succ_r by lia. lia.
Qed.

Lemma iter_xO_digits (p k : positive) :
  Zpos (digits2_pos (Pos.iter xO p k)) = Zpos (digits2_pos p) + Zpos k.
Proof.
  induction k as [|k IH] using Pos.peano_ind.
  - simpl. lia.
  - rewrite Pos.iter_succ. cbn [digits2_pos]. rewrite Pos2Z.inj_succ, IH. lia.
Qed.

(** A mantissa of exactly [prec] digits at an exponent in range is
    already rounded. *)
Lemma binary_round_aux_canonical (prec emax : Z) (sx : bool) (m : positive) (e : Z) :
  Zpos (digits2_pos m) = prec ->
  3 - emax - prec <= e <= emax - prec ->
  binary_round_aux prec emax sx (Zpos m) e loc_Exact = S754_finite sx m e.
Proof.
  intros Hd He. unfold binary_round_aux, shr_fexp.
  cbn [Zdigits2 shr_record_of_loc].
  assert (Hf : fexp prec emax (Zpos (digits2_pos m) + e) - e = 0)
    by (unfold fexp, emin; lia).
  rewrite Hf. cbn [shr shr_m loc_of_shr_record round_nearest_even Zdigits2].
  rewrite Hf. cbn [shr shr_m].
  now replace (e <=? emax - prec) with true by (symmetry; apply Z.leb_le; lia).
Qed.

Lemma binary_round_exact (prec emax : Z) (sx : bool) (p : positive) :
  0 < prec -> prec <= emax -> 3 - emax - prec <= 1 - prec ->
  Zpos (digits2_pos p) <= prec ->
  exists m e,
    binary_round prec emax sx p 0 = S754_finite sx m e /\
    e <= 0 /\ Zpos m = Zpos p * 2 ^ (- e).
Proof.
  intros Hprec Hemax Hemin Hd. unfold binary_round, shl_align.
  assert (Hd1 : 1 <= Zpos (digits2_pos p)) by lia.
  assert (Hf : fexp prec emax (Zpos (digits2_pos p) + 0) = Zpos (digits2_pos p) - prec)
    by (unfold fexp, emin; lia).
  rewrite Hf.
  destruct (Zpos (digits2_pos p) - prec - 0) as [|k|k] eqn:Hk; try lia.
  - exists p, 0. split; [|split; [lia|simpl; lia]].
    apply binary_round_aux_canonical; lia.
  - exists (Pos.iter xO p k), (Zpos (digits2_pos p) - prec).
    split; [|split; [lia|]].
    + apply binary_round_aux_canonical; [rewrite iter_xO_digits|]; lia.
    + rewrite iter_xO_value. f_equal. f_equal. lia.
Qed.

(** An integer below 2^53 in magnitude converts to binary64 without
    rounding. *)
Lemma F64_of_int_exact (n : Z) :
  Z.abs n < 2 ^ 53 ->
  (SF2Q (F64.of_int n) == inject_Z n)%Q /\
  (n <> 0 -> exists m e, F64.of_int n = S754_finite (n <? 0) m e).
Proof.
  intro Hn. unfold F64.of_int, binary_normalize.
  destruct n as [|p|p]; [split; [reflexivity|congruence]| |].
  all: assert (Hd : Zpos (digits2_pos p) <= 53)
         by (change (Zpos (digits2_pos p)) with (Zdigits2 (Zpos p));
             apply Zdigits2_le; simpl in Hn; lia).
  all: match goal with |- context [binary_round _ _ ?sx _ _] =>
         destruct (binary_round_exact F64.prec F64.emax sx p) as (m & e & -> & He & Hm);
           try (unfold F64.prec, F64.emax; lia) end.
  all: split; [|intros _; eauto].
  all: destruct e as [| |k]; try lia; cbn [SF2Q cond_Zopp].
  all: try (simpl in Hm; unfold Qeq, inject_Z; cbn [Qnum Qden]; lia).
  all: change (- Zneg k) with (Zpos k) in Hm; rewrite <- Pos2Z.inj_pow in Hm;
       unfold Qeq, inject_Z; cbn [Qnum Qden]; lia.
Qed.
(* ================================================================== *)
(** * The handlers                                                     *)
(* ================================================================== *)

Section Handlers.
Context {B : Builtins} {E : Engine}.

(** ** The globals are read, never written *)

Lemma preserves_ret {A : Type} (a : A) : preserves_globals (ret a).
Proof. intro w; reflexivity. Qed.

Lemma preserves_lift {A : Type} (c : result A) : preserves_globals (lift c).
Proof. intro w; reflexivity. Qed.

Lemma preserves_read_globals : preserves_globals read_globals.
Proof. intro w; reflexivity. Qed.

Lemma preserves_kokoro_create (text : value) (voice : string) (speed : spec_float) :
  preserves_globals (kokoro_create text voice speed).
Proof.
  intro w. unfold kokoro_create.
  destruct (create text voice speed (kokoro w)); reflexivity.
Qed.

Lemma preserves_bind {A C : Type} (c : M A) (k : A -> M C) :
  preserves_globals c -> (forall a, preserves_globals (k a)) ->
  preserves_globals (bind c k).
Proof.
  intros Hc Hk w. unfold bind. specialize (Hc w).
  destruct (c w) as [[e|a] w']; simpl in *; [exact Hc|].
  rewrite Hk. exact Hc.
Qed.

Lemma preserves_try_except {A : Type} (c : M A) (h : exn -> M A) :
  preserves_globals c -> (forall e, preserves_globals (h e)) ->
  preserves_globals (try_except c h).
Proof.
  intros Hc Hh w. unfold try_except. specialize (Hc w).
  destruct (c w) as [[e|a] w']; simpl in *; [|exact Hc].
  rewrite Hh. exact Hc.
Qed.

Ltac preserve :=
  repeat first
    [ apply preserves_ret
    | apply preserves_lift
    | apply preserves_read_globals
    | apply preserves_kokoro_create
    | apply preserves_bind; [|intro]
    | apply preserves_try_except; [|intro]
    | match goal with
      | |- preserves_globals (if ?b then _ else _) => destruct b
      | |- preserves_globals (match ?x with _ => _ end) => destruct x
      end ].

Lemma route_preserves (req : Request) : preserves_globals (route req).
Proof. destruct req; unfold route, health, synthesize, voices; preserve. Qed.

Lemma serve_globals (req : Request) (w : World) :
  globals (snd (serve req w)) = globals w.
Proof.
  unfold serve. pose proof (route_preserves req w) as Hr.
  destruct (route req w) as [[e|r] w']; exact Hr.
Qed.

Lemma serve_all_globals (reqs : list Request) (w : World) :
  globals (serve_all reqs w) = globals w.
Proof.
  revert w; induction reqs as [|req reqs IH]; intro w; [reflexivity|].
  simpl. now rewrite IH, serve_globals.
Qed.

Lemma reachable_globals (model : engine_state) (reqs : list Request) :
  globals (serve_all reqs (boot model)) = module_globals.
Proof. now rewrite serve_all_globals. Qed.

(** ** [synthesize], path by path *)

Ltac step :=
  cbv beta iota zeta delta
    [synthesize try_except bind lift ret read_globals json_request].

Ltac enter Hg Ht :=
  step;
  match goal with
  | |- context [truthy (PDict ?kvs)] =>
      replace (truthy (PDict kvs)) with true
        by (destruct kvs; [discriminate Ht|reflexivity]);
      cbn [negb py_contains py_getitem py_get]; rewrite Ht; cbn [is_some negb];
      rewrite Hg; fold (speed_arg kvs); fold (voice_arg kvs)
  end.

Lemma serve_synthesize (get_json : result value) (w w' : World) (r : Response) :
  synthesize get_json w = (inr r, w') ->
  serve (POST_synthesize get_json) w = (r, w').
Proof. intro Hs. unfold serve, route. now rewrite Hs. Qed.

(** No [text]: rejected at once, or, for a body that is no object and
    answers the membership test oddly, an exception on the way. *)
Lemma synthesize_lacks_text (get_json : result value) (w : World) :
  lacks_text get_json = true ->
  exists r, synthesize get_json w = (inr r, w) /\
            (status r = 400 \/ status r = 500) /\
            is_some (error_field r) = true.
Proof.
  intro Hl. destruct get_json as [e|data]; [eexists; split; [reflexivity|]; auto|].
  step. destruct data as [|b|n|x|s|xs|kvs]; cbn [truthy negb py_contains].
  - eexists; split; [reflexivity|]; auto.
  - destruct b; eexists; (split; [reflexivity|]); auto.
  - destruct (n =? 0); eexists; (split; [reflexivity|]); auto.
  - destruct (SFeqb x F64.zero); eexists; (split; [reflexivity|]); auto.
  - destruct (String.eqb s EmptyString); cbn [negb]; [eexists; split; [reflexivity|]; auto|].
    destruct (index 0 "text" s); cbn [is_some negb py_getitem];
      eexists; (split; [reflexivity|]); auto.
  - destruct xs as [|x xs]; [eexists; split; [reflexivity|]; auto|].
    destruct (existsb _ (x :: xs)); cbn [negb py_getitem];
      eexists; (split; [reflexivity|]); auto.
  - simpl in Hl. destruct kvs as [|kv kvs]; [eexists; split; [reflexivity|]; auto|].
    destruct (lookup "text" (kv :: kvs)); [discriminate Hl|].
    cbn [is_some negb]. eexists; split; [reflexivity|]; auto.
Qed.

Lemma synthesize_missing (data : value) (w : World) :
  truthy data = false \/ (exists kvs, data = PDict kvs /\ lookup "text" kvs = None) ->
  synthesize (inr data) w
    = (inr (error_response "Missing required field: text" 400), w).
Proof.
  intros [Hf|(kvs & -> & Hn)]; step.
  - now rewrite Hf.
  - destruct kvs as [|kv kvs]; [reflexivity|].
    cbn [truthy negb py_contains]. now rewrite Hn.
Qed.

Lemma synthesize_speed_fails (w : World) (kvs : list (string * value))
    (text : value) (e : exn) :
  globals w = module_globals ->
  lookup "text" kvs = Some text ->
  py_float (speed_arg kvs) = inl e ->
  synthesize (json_request kvs) w = (inr (error_response (exn_msg e) 500), w).
Proof. intros Hg Ht Hs. enter Hg Ht. now rewrite Hs. Qed.

Lemma synthesize_voice_unhashable (w : World) (kvs : list (string * value))
    (text : value) (speed : spec_float) :
  globals w = module_globals ->
  lookup "text" kvs = Some text ->
  py_float (speed_arg kvs) = inr speed ->
  hashable (voice_arg kvs) = false ->
  exists e, synthesize (json_request kvs) w
            = (inr (error_response (exn_msg e) 500), w).
Proof.
  intros Hg Ht Hs Hh. enter Hg Ht. rewrite Hs.
  destruct (voice_arg kvs); try discriminate Hh; eexists; reflexivity.
Qed.

Lemma synthesize_voice_unknown (w : World) (kvs : list (string * value))
    (text : value) (speed : spec_float) :
  globals w = module_globals ->
  lookup "text" kvs = Some text ->
  py_float (speed_arg kvs) = inr speed ->
  hashable (voice_arg kvs) = true ->
  is_voice (voice_arg kvs) = false ->
  synthesize (json_request kvs) w
    = (inr (error_response ("Invalid voice: " ++ py_str (voice_arg kvs)) 400), w).
Proof.
  intros Hg Ht Hs Hh Hv. enter Hg Ht. rewrite Hs.
  destruct (voice_arg kvs); try discriminate Hh; try reflexivity.
  cbn [py_in_dict]. unfold is_voice in Hv. rewrite Hv. reflexivity.
Qed.

Lemma synthesize_validated (w : World) (kvs : list (string * value))
    (text : value) (code : string) (speed : spec_float) :
  globals w = module_globals ->
  validated kvs text code speed ->
  synthesize (json_request kvs) w
    = (inr (respond (fst (create text code speed (kokoro w)))),
       logged w (snd (create text code speed (kokoro w)))
         {| call_text := text; call_voice := code; call_speed := speed |}).
Proof.
  intros Hg (Ht & Hs & s & Hv & Hc). enter Hg Ht. rewrite Hs, Hv.
  cbn [py_in_dict py_dict_getitem]. rewrite Hc. cbn [is_some negb].
  unfold kokoro_create.
  destruct (create text code speed (kokoro w)) as [[e|[audio rate]] st];
    cbn [fst snd respond]; [reflexivity|].
  fold (encode_wav audio rate).
  destruct (encode_wav audio rate) as [e|wav]; [reflexivity|].
  destruct (py_truediv (Z.of_nat (List.length audio)) rate) as [e|d]; reflexivity.
Qed.

(** A voice that passes the membership test is a string of the map. *)
Lemma voice_cases (v : value) :
  hashable v = false \/
  (hashable v = true /\ is_voice v = false) \/
  (exists s code, v = PStr s /\ lookup s (VOICE_MAP module_globals) = Some code).
Proof.
  destruct v as [| | | |s| |]; auto.
  destruct (lookup s (VOICE_MAP module_globals)) as [code|] eqn:Hs.
  - right; right; eauto.
  - right; left. split; [reflexivity|]. unfold is_voice. now rewrite Hs.
Qed.

Lemma respond_status (r : result (list spec_float * Z)) :
  status (respond r) = 200 \/ status (respond r) = 500.
Proof.
  destruct r as [e|[audio rate]]; cbn [respond]; auto.
  destruct (encode_wav audio rate); auto.
  destruct (py_truediv _ rate); auto.
Qed.


(** A 200 comes from one path only: a validated body, an engine that
    returned, an encoding that fitted the container. *)
Lemma synthesize_ok_inv (get_json : result value) (w : World) :
  globals w = module_globals ->
  status (fst (serve (POST_synthesize get_json) w)) = 200 ->
  exists kvs text code speed audio rate wav,
    get_json = json_request kvs /\
    validated kvs text code speed /\
    create text code speed (kokoro w) = (inr (audio, rate), kokoro (snd (serve (POST_synthesize get_json) w))) /\
    encode_wav audio rate = inr wav /\
    fst (serve (POST_synthesize get_json) w)
      = audio_response wav
          (F64.div (F64.of_int (Z.of_nat (List.length audio))) (F64.of_int rate)) rate.
Proof.
  intros Hg Hok.
  destruct (lacks_text get_json) eqn:Hl.
  { destruct (synthesize_lacks_text get_json w Hl) as (r & Hr & [Hs|Hs] & _);
      rewrite (serve_synthesize _ _ _ _ Hr) in Hok; simpl in Hok; lia. }
  destruct get_json as [e|[| | | | | |kvs]]; try discriminate Hl.
  simpl in Hl. destruct (lookup "text" kvs) as [text|] eqn:Ht; [|discriminate Hl].
  change (inr (PDict kvs)) with (json_request kvs) in *.
  destruct (py_float (speed_arg kvs)) as [e|speed] eqn:Hs.
  { rewrite (serve_synthesize _ _ _ _ (synthesize_speed_fails w kvs text e Hg Ht Hs)) in Hok.
    discriminate Hok. }
  destruct (voice_cases (voice_arg kvs)) as [Hh|[[Hh Hv]|(s & code & Hv & Hc)]].
  { destruct (synthesize_voice_unhashable w kvs text speed Hg Ht Hs Hh) as [e He].
    rewrite (serve_synthesize _ _ _ _ He) in Hok. discriminate Hok. }
  { rewrite (serve_synthesize _ _ _ _
               (synthesize_voice_unknown w kvs text speed Hg Ht Hs Hh Hv)) in Hok.
    discriminate Hok. }
  assert (Hval : validated kvs text code speed) by (repeat split; eauto).
  pose proof (serve_synthesize _ _ _ _ (synthesize_validated w kvs text code speed Hg Hval))
    as Hserve.
  rewrite Hserve in *. cbn [fst snd] in *.
  exists kvs, text, code, speed.
  destruct (create text code speed (kokoro w)) as [[e|[audio rate]] st];
    cbn [fst snd respond logged kokoro] in *; [discriminate Hok|].
  destruct (encode_wav audio rate) as [e|wav] eqn:Hw; [discriminate Hok|].
  unfold py_truediv in *. destruct (rate =? 0); [discriminate Hok|].
  exists audio, rate, wav. auto.
Qed.

(** ** [POST /synthesize] and [GET /voices] in any state the service reaches *)

(** C2, as amended: a request with [text], whose speed is absent or
    converts to a float, and whose [voice] is a hashable value (a string,
    a number, a boolean or null) outside the fixed voice set, is answered
    with status 400 and a JSON error body. *)
Theorem C2_unknown_voice_is_rejected (model : engine_state) (reqs : list Request)
    (kvs : list (string * value)) (text voice : value) (speed : spec_float) :
  lookup "text" kvs = Some text ->
  lookup "voice" kvs = Some voice ->
  hashable voice = true ->
  is_voice voice = false ->
  py_float (speed_arg kvs) = inr speed ->
  let r := fst (serve (POST_synthesize (json_request kvs)) (serve_all reqs (boot model))) in
  status r = 400 /\
  body r = JsonBody (PDict [("error", PStr ("Invalid voice: " ++ py_str voice))]).
Proof.
  intros Ht Hv Hh Hm Hs.
  assert (Hva : voice_arg kvs = voice) by (unfold voice_arg; now rewrite Hv).
  rewrite <- Hva in Hh, Hm |- *.
  rewrite (serve_synthesize _ _ _ _
             (synthesize_voice_unknown _ kvs text speed
                (reachable_globals model reqs) Ht Hs Hh Hm)).
  split; reflexivity.
Qed.

(** C3, as amended: when a request has passed validation and the engine
    raises, the response has status 500 and its [error] field is the
    text of the exception; the field is non-empty exactly when that text
    is. *)
Theorem C3_engine_failure_is_500 (model : engine_state) (reqs : list Request)
    (kvs : list (string * value)) (text : value) (code : string)
    (speed : spec_float) (e : exn) (model' : engine_state) :
  validated kvs text code speed ->
  create text code speed (kokoro (serve_all reqs (boot model))) = (inl e, model') ->
  let r := fst (serve (POST_synthesize (json_request kvs)) (serve_all reqs (boot model))) in
  status r = 500 /\
  error_field r = Some (PStr (exn_msg e)) /\
  (has_error_text r = true <-> exn_msg e <> EmptyString).
Proof.
  intros Hval Hc.
  rewrite (serve_synthesize _ _ _ _
             (synthesize_validated _ kvs text code speed
                (reachable_globals model reqs) Hval)).
  rewrite Hc. cbn [fst respond]. split; [reflexivity|]. split; [reflexivity|].
  unfold has_error_text, error_response, with_status, jsonify, error_field.
  cbn [body lookup String.eqb Ascii.eqb Bool.eqb].
  destruct (String.eqb_spec (exn_msg e) EmptyString) as [Heq|Hne]; cbn [negb];
    split; intro Hx; try discriminate; try reflexivity; try assumption.
  contradiction.
Qed.

(** C4, as amended: a request whose body lacks [text], or is no JSON
    object at all, never reaches the engine.  It is answered with status
    400 and an [error] field when the body is a JSON object, or a value
    Python takes for false (null, false, 0, the empty string, the empty
    array); and with status 500 and the text of the exception when
    [request.get_json()] raises. *)
Theorem C4_no_text_no_synthesis (model : engine_state) (reqs : list Request)
    (get_json : result value) :
  lacks_text get_json = true ->
  let w := serve_all reqs (boot model) in
  let r := fst (serve (POST_synthesize get_json) w) in
  snd (serve (POST_synthesize get_json) w) = w /\
  ((exists kvs, get_json = inr (PDict kvs)) \/
   (exists data, get_json = inr data /\ truthy data = false) ->
   status r = 400 /\ has_error_text r = true) /\
  (forall e, get_json = inl e ->
   status r = 500 /\ error_field r = Some (PStr (exn_msg e))).
Proof.
  intros Hl w r. subst r.
  destruct (synthesize_lacks_text get_json w Hl) as (r & Hr & _).
  rewrite (serve_synthesize _ _ _ _ Hr). cbn [fst snd].
  split; [reflexivity|]. split.
  - intros [(kvs & ->)|(data & -> & Hf)].
    + simpl in Hl. rewrite synthesize_missing in Hr.
      * injection Hr as <-. split; reflexivity.
      * right. exists kvs. split; [reflexivity|].
        destruct (lookup "text" kvs); [discriminate Hl|reflexivity].
    + rewrite synthesize_missing in Hr by (left; exact Hf).
      injection Hr as <-. split; reflexivity.
  - intros e ->. injection Hr as <-. split; reflexivity.
Qed.

(** C5, as amended: for a request with [text] that reaches the engine,
    an absent [voice] makes the one call carry the default voice
    "af_bella", and an absent [speed] makes it carry the speed 1.0. *)
Theorem C5_defaults_are_passed (model : engine_state) (reqs : list Request)
    (kvs : list (string * value)) (text : value) :
  lookup "text" kvs = Some text ->
  let w := serve_all reqs (boot model) in
  let w' := snd (serve (POST_synthesize (json_request kvs)) w) in
  (lookup "voice" kvs = None ->
   forall speed, py_float (speed_arg kvs) = inr speed ->
   calls w' = calls w ++ [ {| call_text := text;
                              call_voice := "af_bella";
                              call_speed := speed |} ]) /\
  (lookup "speed" kvs = None ->
   forall s code,
     voice_arg kvs = PStr s -> lookup s (VOICE_MAP module_globals) = Some code ->
     calls w' = calls w ++ [ {| call_text := text;
                                call_voice := code;
                                call_speed := F64.one |} ]) /\
  (SF2Q F64.one == 1)%Q.
Proof.
  intros Ht w w'. subst w'. split; [|split; [|reflexivity]].
  - intros Hv speed Hs.
    assert (Hval : validated kvs text "af_bella" speed).
    { split; [exact Ht|]. split; [exact Hs|]. exists "af_bella".
      unfold voice_arg. rewrite Hv. split; reflexivity. }
    rewrite (serve_synthesize _ _ _ _
               (synthesize_validated w kvs text _ speed
                  (reachable_globals model reqs) Hval)).
    reflexivity.
  - intros Hsp s code Hv Hc.
    assert (Hval : validated kvs text code F64.one).
    { split; [exact Ht|]. split; [|eauto].
      unfold speed_arg. rewrite Hsp. reflexivity. }
    rewrite (serve_synthesize _ _ _ _
               (synthesize_validated w kvs text code _
                  (reachable_globals model reqs) Hval)).
    reflexivity.
Qed.

(** C7: on every successful response the [X-Audio-Duration] header is
    the text of [len(audio) / sample_rate], the binary64 quotient of the
    length and the rate that the engine returned for this request. *)
Theorem C7_duration_header (model : engine_state) (reqs : list Request)
    (get_json : result value) :
  let w := serve_all reqs (boot model) in
  let r := fst (serve (POST_synthesize get_json) w) in
  let w' := snd (serve (POST_synthesize get_json) w) in
  status r = 200 ->
  exists text code speed audio rate,
    create text code speed (kokoro w) = (inr (audio, rate), kokoro w') /\
    header "X-Audio-Duration" r
      = Some (str_float (F64.div (F64.of_int (Z.of_nat (List.length audio)))
                                 (F64.of_int rate))) /\
    header "X-Sample-Rate" r = Some (str_int rate).
Proof.
  intros w r w' Hok. subst r w'.
  destruct (synthesize_ok_inv get_json w (reachable_globals model reqs) Hok)
    as (kvs & text & code & speed & audio & rate & wav & _ & _ & Hc & _ & Hr).
  exists text, code, speed, audio, rate. rewrite Hr.
  split; [exact Hc|]. split; reflexivity.
Qed.

(** C8: whatever requests came before, [GET /voices] lists the nine
    fixed identifiers, in the order of the table, with the default
    "af_bella"; no request changes the voice table or the defaults. *)
Theorem C8_voices_are_fixed (model : engine_state) (reqs : list Request) :
  let w := serve_all reqs (boot model) in
  fst (serve GET_voices w)
    = jsonify (PDict [ ("voices",
                        PList [ PStr "af_bella"; PStr "af_nicole"; PStr "af_sarah";
                                PStr "af_sky"; PStr "am_adam"; PStr "am_michael";
                                PStr "bf_emma"; PStr "bf_isabella"; PStr "bm" ]);
                       ("default", PStr "af_bella") ]) /\
  globals w = module_globals /\
  globals (snd (serve GET_voices w)) = module_globals.
Proof.
  intro w. assert (Hg : globals w = module_globals) by apply reachable_globals.
  split; [|split; [exact Hg|now rewrite serve_globals]].
  unfold serve, route, voices, bind, read_globals, ret. cbn [fst]. rewrite Hg. reflexivity.
Qed.

(** C9: a request with [text] whose [speed] does not convert to a float
    is answered with status 500, the conversion error in the [error]
    field, and no call of the engine; whether its voice is known or not
    plays no part, the conversion coming first. *)
Theorem C9_unconvertible_speed_is_500 (model : engine_state) (reqs : list Request)
    (kvs : list (string * value)) (text speed : value) (e : exn) :
  lookup "text" kvs = Some text ->
  lookup "speed" kvs = Some speed ->
  py_float speed = inl e ->
  let w := serve_all reqs (boot model) in
  let r := fst (serve (POST_synthesize (json_request kvs)) w) in
  status r = 500 /\
  error_field r = Some (PStr (exn_msg e)) /\
  snd (serve (POST_synthesize (json_request kvs)) w) = w.
Proof.
  intros Ht Hsp He w r. subst r.
  assert (Hs : py_float (speed_arg kvs) = inl e)
    by (unfold speed_arg; now rewrite Hsp).
  rewrite (serve_synthesize _ _ _ _
             (synthesize_speed_fails w kvs text e (reachable_globals model reqs) Ht Hs)).
  repeat split; reflexivity.
Qed.

(** C10, as amended: a request whose [text] is the empty string is not
    turned away for its text, the check being on the key alone: if it is
    answered with 400 at all, that is the rejection of its voice; and
    when its voice and speed pass validation it is not answered with 400
    and the empty string is what the engine is called with. *)
Theorem C10_empty_text_is_passed_on (model : engine_state) (reqs : list Request)
    (kvs : list (string * value)) :
  lookup "text" kvs = Some (PStr EmptyString) ->
  let w := serve_all reqs (boot model) in
  let r := fst (serve (POST_synthesize (json_request kvs)) w) in
  let w' := snd (serve (POST_synthesize (json_request kvs)) w) in
  (status r = 400 ->
   body r = JsonBody (PDict [("error", PStr ("Invalid voice: " ++ py_str (voice_arg kvs)))])) /\
  (forall code speed,
     validated kvs (PStr EmptyString) code speed ->
     status r <> 400 /\
     calls w' = calls w ++ [ {| call_text := PStr EmptyString;
                                call_voice := code;
                                call_speed := speed |} ]).
Proof.
  intros Ht w r w'. subst r w'.
  assert (Hg : globals w = module_globals) by apply reachable_globals.
  split.
  - destruct (py_float (speed_arg kvs)) as [e|speed] eqn:Hs.
    { rewrite (serve_synthesize _ _ _ _ (synthesize_speed_fails w kvs _ e Hg Ht Hs)).
      discriminate. }
    destruct (voice_cases (voice_arg kvs)) as [Hh|[[Hh Hv]|(s & code & Hv & Hc)]].
    + destruct (synthesize_voice_unhashable w kvs _ speed Hg Ht Hs Hh) as [e He].
      rewrite (serve_synthesize _ _ _ _ He). discriminate.
    + rewrite (serve_synthesize _ _ _ _
                 (synthesize_voice_unknown w kvs _ speed Hg Ht Hs Hh Hv)).
      reflexivity.
    + assert (Hval : validated kvs (PStr EmptyString) code speed) by (repeat split; eauto).
      rewrite (serve_synthesize _ _ _ _ (synthesize_validated w kvs _ code speed Hg Hval)).
      cbn [fst]. intro H400.
      destruct (respond_status (fst (create (PStr EmptyString) code speed (kokoro w)))) as [Hr|Hr];
        rewrite Hr in H400; discriminate H400.
  - intros code speed Hval.
    rewrite (serve_synthesize _ _ _ _ (synthesize_validated w kvs _ code speed Hg Hval)).
    cbn [fst snd]. split; [|reflexivity].
    destruct (respond_status (fst (create (PStr EmptyString) code speed (kokoro w)))) as [Hr|Hr];
      rewrite Hr; discriminate.
Qed.


(** ** Every path of [synthesize] at once *)

Lemma lookup_keys {A : Type} (k : string) (kvs : list (string * A)) :
  is_some (lookup k kvs) = true <-> In k (keys kvs).
Proof.
  unfold keys. induction kvs as [|[k' v] kvs IH]; simpl; [split; [discriminate|tauto]|].
  destruct (String.eqb_spec k' k) as [->|Hne]; simpl.
  - split; auto.
  - rewrite IH. split; [auto|]. intros [Heq|Hin]; [contradiction|exact Hin].
Qed.

(** The voice table maps every identifier to itself. *)
Lemma VOICE_MAP_identity (s code : string) :
  lookup s (VOICE_MAP module_globals) = Some code -> code = s.
Proof.
  cbn [VOICE_MAP module_globals lookup].
  repeat match goal with
         | |- (if String.eqb ?k s then _ else _) = _ -> _ =>
             destruct (String.eqb_spec k s) as [<-|_];
             [intro Hc; injection Hc as <-; reflexivity|]
         end.
  discriminate.
Qed.

Lemma validated_voice (kvs : list (string * value)) (text : value)
    (code : string) (speed : spec_float) :
  validated kvs text code speed ->
  voice_arg kvs = PStr code /\ In code (keys (VOICE_MAP module_globals)).
Proof.
  intros (_ & _ & s & Hv & Hc).
  pose proof (VOICE_MAP_identity s code Hc) as ->.
  split; [exact Hv|]. apply lookup_keys. now rewrite Hc.
Qed.

(** A body without [text] is answered with one of the two error
    responses, the world untouched. *)
Lemma synthesize_lacks_text_shape (get_json : result value) (w : World) :
  lacks_text get_json = true ->
  exists msg code,
    synthesize get_json w = (inr (error_response msg code), w) /\
    (code = 400 \/ code = 500).
Proof.
  intro Hl. destruct get_json as [e|data];
    [exists (exn_msg e), 500; split; [reflexivity|]; auto|].
  step. destruct data as [|b|n|x|s|xs|kvs]; cbn [truthy negb py_contains].
  - do 2 eexists; split; [reflexivity|]; auto.
  - destruct b; do 2 eexists; (split; [reflexivity|]); auto.
  - destruct (n =? 0); do 2 eexists; (split; [reflexivity|]); auto.
  - destruct (SFeqb x F64.zero); do 2 eexists; (split; [reflexivity|]); auto.
  - destruct (String.eqb s EmptyString); cbn [negb];
      [do 2 eexists; split; [reflexivity|]; auto|].
    destruct (index 0 "text" s); cbn [is_some negb py_getitem];
      do 2 eexists; (split; [reflexivity|]); auto.
  - destruct xs as [|x xs]; [do 2 eexists; split; [reflexivity|]; auto|].
    destruct (existsb _ (x :: xs)); cbn [negb py_getitem];
      do 2 eexists; (split; [reflexivity|]); auto.
  - simpl in Hl. destruct kvs as [|kv kvs]; [do 2 eexists; split; [reflexivity|]; auto|].
    destruct (lookup "text" (kv :: kvs)); [discriminate Hl|].
    cbn [is_some negb]. do 2 eexists; split; [reflexivity|]; auto.
Qed.

(** Either the request is turned away before the engine, with an error
    response and the world as it was, or it passes validation and the
    engine is called once. *)
Lemma synthesize_outcome (get_json : result value) (w : World) :
  globals w = module_globals ->
  (~ reaches_engine get_json /\
   exists msg code,
     serve (POST_synthesize get_json) w = (error_response msg code, w) /\
     (code = 400 \/ code = 500)) \/
  (exists kvs text code speed,
     get_json = json_request kvs /\
     validated kvs text code speed /\
     serve (POST_synthesize get_json) w
       = (respond (fst (create text code speed (kokoro w))),
          logged w (snd (create text code speed (kokoro w)))
            {| call_text := text; call_voice := code; call_speed := speed |})).
Proof.
  intro Hg. destruct (lacks_text get_json) eqn:Hl.
  { left. split.
    - intros (kvs & text & code & speed & -> & Ht & _).
      simpl in Hl. rewrite Ht in Hl. discriminate Hl.
    - destruct (synthesize_lacks_text_shape get_json w Hl) as (msg & code & Hs & Hc).
      exists msg, code. split; [exact (serve_synthesize _ _ _ _ Hs)|exact Hc]. }
  destruct get_json as [e|[| | | | | |kvs]]; try discriminate Hl.
  simpl in Hl. destruct (lookup "text" kvs) as [text|] eqn:Ht; [|discriminate Hl].
  change (inr (PDict kvs)) with (json_request kvs) in *.
  assert (Hinj : forall kvs' text' code' speed',
             json_request kvs = json_request kvs' ->
             validated kvs' text' code' speed' ->
             validated kvs text' code' speed')
    by (intros kvs' ? ? ? Heq Hv; injection Heq as <-; exact Hv).
  destruct (py_float (speed_arg kvs)) as [e|speed] eqn:Hs.
  { left. split.
    - intros (kvs' & text' & code' & speed' & Heq & Hv).
      destruct (Hinj _ _ _ _ Heq Hv) as (_ & Hs' & _). congruence.
    - exists (exn_msg e), 500. split; [|auto].
      exact (serve_synthesize _ _ _ _ (synthesize_speed_fails w kvs text e Hg Ht Hs)). }
  destruct (voice_cases (voice_arg kvs)) as [Hh|[[Hh Hv]|(s & code & Hv & Hc)]].
  - left. split.
    + intros (kvs' & text' & code' & speed' & Heq & Hval).
      destruct (Hinj _ _ _ _ Heq Hval) as (_ & _ & s & Hv' & _).
      rewrite Hv' in Hh. discriminate Hh.
    + destruct (synthesize_voice_unhashable w kvs text speed Hg Ht Hs Hh) as [e He].
      exists (exn_msg e), 500. split; [exact (serve_synthesize _ _ _ _ He)|auto].
  - left. split.
    + intros (kvs' & text' & code' & speed' & Heq & Hval).
      destruct (Hinj _ _ _ _ Heq Hval) as (_ & _ & s & Hv' & Hc').
      rewrite Hv' in Hv. unfold is_voice in Hv. rewrite Hc' in Hv. discriminate Hv.
    + eexists _, 400. split; [|auto].
      exact (serve_synthesize _ _ _ _
               (synthesize_voice_unknown w kvs text speed Hg Ht Hs Hh Hv)).
  - right. exists kvs, text, code, speed.
    assert (Hval : validated kvs text code speed) by (repeat split; eauto).
    split; [reflexivity|]. split; [exact Hval|].
    exact (serve_synthesize _ _ _ _ (synthesize_validated w kvs text code speed Hg Hval)).
Qed.


(** ** What a request can and cannot do *)


(** X5: a request that does not pass validation (no JSON, no [text], a
    speed that does not convert, a voice that is unhashable or unknown)
    leaves the whole process as it was: the engine is not called and its
    state does not move; a request that passes makes the log grow by
    exactly one call. *)
Theorem X5_engine_called_iff_validated (model : engine_state) (reqs : list Request)
    (get_json : result value) :
  let w := serve_all reqs (boot model) in
  let w' := snd (serve (POST_synthesize get_json) w) in
  (~ reaches_engine get_json -> w' = w) /\
  (reaches_engine get_json ->
   List.length (calls w') = S (List.length (calls w))).
Proof.
  intros w w'. subst w'.
  destruct (synthesize_outcome get_json w (reachable_globals model reqs))
    as [(Hn & msg & code & -> & _)|(kvs & text & code & speed & Hj & Hv & ->)];
    cbn [snd].
  - split; [reflexivity|]. intro Hr. contradiction.
  - split.
    + intro Hn. exfalso. apply Hn. exists kvs, text, code, speed. auto.
    + intros _. cbn [logged calls]. rewrite length_app. simpl. lia.
Qed.

(** X6: what the engine is called with is what the client sent: the
    value under [text] untouched, whatever its JSON type; the requested
    voice string itself; and a JSON float given as speed as it is,
    whatever its value, there being no range check. *)
Theorem X6_arguments_pass_through (model : engine_state) (reqs : list Request)
    (kvs : list (string * value)) (text : value) (s : string) (x : spec_float) :
  lookup "text" kvs = Some text ->
  lookup "voice" kvs = Some (PStr s) ->
  is_voice (PStr s) = true ->
  lookup "speed" kvs = Some (PFloat x) ->
  let w := serve_all reqs (boot model) in
  calls (snd (serve (POST_synthesize (json_request kvs)) w))
    = calls w ++ [ {| call_text := text; call_voice := s; call_speed := x |} ].
Proof.
  intros Ht Hv Hm Hs w.
  unfold is_voice in Hm.
  destruct (lookup s (VOICE_MAP module_globals)) as [code|] eqn:Hc; [|discriminate Hm].
  pose proof (VOICE_MAP_identity s code Hc) as ->.
  assert (Hval : validated kvs text s x).
  { split; [exact Ht|]. split.
    - unfold speed_arg. rewrite Hs. reflexivity.
    - exists s. unfold voice_arg. rewrite Hv. auto. }
  rewrite (serve_synthesize _ _ _ _
             (synthesize_validated w kvs text s x (reachable_globals model reqs) Hval)).
  reflexivity.
Qed.

Lemma serve_calls (req : Request) (w : World) :
  globals w = module_globals ->
  calls (snd (serve req w)) = calls w \/
  (is_synthesize req = true /\
   exists c, calls (snd (serve req w)) = calls w ++ [c] /\
             In (call_voice c) (keys (VOICE_MAP module_globals))).
Proof.
  intro Hg. destruct req as [|get_json|]; [left; reflexivity| |left; reflexivity].
  destruct (synthesize_outcome get_json w Hg)
    as [(_ & msg & code & -> & _)|(kvs & text & code & speed & _ & Hv & ->)];
    [left; reflexivity|].
  right. split; [reflexivity|]. eexists. split; [reflexivity|].
  exact (proj2 (validated_voice _ _ _ _ Hv)).
Qed.

Lemma serve_all_calls (reqs : list Request) (w : World) :
  globals w = module_globals ->
  Forall (fun c => In (call_voice c) (keys (VOICE_MAP module_globals))) (calls w) ->
  (List.length (calls (serve_all reqs w))
     <= List.length (calls w) + synthesize_count reqs)%nat /\
  Forall (fun c => In (call_voice c) (keys (VOICE_MAP module_globals)))
         (calls (serve_all reqs w)).
Proof.
  revert w. induction reqs as [|req reqs IH]; intros w Hg Hall.
  - simpl. split; [lia|exact Hall].
  - cbn [serve_all]. unfold synthesize_count. cbn [filter].
    assert (Hg' : globals (snd (serve req w)) = module_globals)
      by now rewrite serve_globals.
    destruct (serve_calls req w Hg) as [Hc|(Hs & c & Hc & Hin)].
    + destruct (IH _ Hg') as [Hlen Hf]; [now rewrite Hc|].
      split; [|exact Hf]. rewrite Hc in Hlen.
      unfold synthesize_count in Hlen. destruct (is_synthesize req); simpl; lia.
    + destruct (IH _ Hg') as [Hlen Hf].
      { rewrite Hc. apply Forall_app. split; [exact Hall|]. now constructor. }
      split; [|exact Hf]. rewrite Hc, length_app in Hlen.
      unfold synthesize_count in Hlen. rewrite Hs. simpl in *. lia.
Qed.

(** X7: over any history of requests, the engine has been called at most
    once for each [POST /synthesize] among them, and never on behalf of
    [GET /health] or [GET /voices]. *)
Theorem X7_calls_bounded_by_requests (model : engine_state) (reqs : list Request) :
  (List.length (calls (serve_all reqs (boot model))) <= synthesize_count reqs)%nat /\
  (forall req w, is_synthesize req = false -> snd (serve req w) = w).
Proof.
  split.
  - destruct (serve_all_calls reqs (boot model) eq_refl) as [Hlen _];
      [constructor|exact Hlen].
  - intros [|get_json|] w Hs; [reflexivity|discriminate Hs|reflexivity].
Qed.

(** X8: whatever the history of requests, every call the engine has
    received carried one of the nine voice identifiers of the table. *)
Theorem X8_engine_voice_invariant (model : engine_state) (reqs : list Request) :
  Forall (fun c => In (call_voice c)
                      [ "af_bella"; "af_nicole"; "af_sarah"; "af_sky"; "am_adam";
                        "am_michael"; "bf_emma"; "bf_isabella"; "bm" ])
         (calls (serve_all reqs (boot model))).
Proof.
  destruct (serve_all_calls reqs (boot model) eq_refl) as [_ Hf];
    [constructor|exact Hf].
Qed.

(** X9: the voices [GET /voices] lists are the voices [POST /synthesize]
    takes: with [text] present and a speed that converts, a string given
    as voice is turned away with 400 exactly when it is not in the
    list. *)
Theorem X9_advertised_voices_are_accepted (model : engine_state) (reqs : list Request)
    (kvs : list (string * value)) (text : value) (s : string) (speed : spec_float) :
  lookup "text" kvs = Some text ->
  lookup "voice" kvs = Some (PStr s) ->
  py_float (speed_arg kvs) = inr speed ->
  let w := serve_all reqs (boot model) in
  In (PStr s) (advertised (fst (serve GET_voices w))) <->
  status (fst (serve (POST_synthesize (json_request kvs)) w)) <> 400.
Proof.
  intros Ht Hv Hs w.
  assert (Hg : globals w = module_globals) by apply reachable_globals.
  assert (Hva : voice_arg kvs = PStr s) by (unfold voice_arg; now rewrite Hv).
  assert (Hadv : advertised (fst (serve GET_voices w))
                 = map PStr (keys (VOICE_MAP module_globals))).
  { unfold serve, route, voices, bind, read_globals, ret. cbn [fst]. now rewrite Hg. }
  rewrite Hadv.
  assert (Hin : In (PStr s) (map PStr (keys (VOICE_MAP module_globals)))
                <-> is_voice (PStr s) = true).
  { unfold is_voice. rewrite lookup_keys, in_map_iff. split.
    - intros (k & Hk & Hin). now injection Hk as <-.
    - intro Hin. eauto. }
  rewrite Hin. destruct (is_voice (PStr s)) eqn:Hm.
  - split; [intros _|reflexivity].
    unfold is_voice in Hm.
    destruct (lookup s (VOICE_MAP module_globals)) as [code|] eqn:Hc; [|discriminate Hm].
    assert (Hval : validated kvs text code speed) by (repeat split; eauto).
    rewrite (serve_synthesize _ _ _ _ (synthesize_validated w kvs text code speed Hg Hval)).
    cbn [fst].
    destruct (respond_status (fst (create text code speed (kokoro w)))) as [Hr|Hr];
      rewrite Hr; discriminate.
  - split; [discriminate|]. intro Hne. exfalso. apply Hne.
    rewrite <- Hva in Hm.
    rewrite (serve_synthesize _ _ _ _
               (synthesize_voice_unknown w kvs text speed Hg Ht Hs
                  ltac:(now rewrite Hva) Hm)).
    reflexivity.
Qed.

(** X10: a JSON body that is no object never reaches the engine, and its
    answer follows from Python's truth and membership tests: 400 for
    null, false, 0, and for a string or an array that does not contain
    "text"; 500 for true, for a non-zero number, and for a string or an
    array that does contain "text" (the subscript on it then raises). *)
Theorem X10_bodies_that_are_no_object (model : engine_state) (reqs : list Request)
    (data : value) :
  (forall kvs, data <> PDict kvs) ->
  let w := serve_all reqs (boot model) in
  snd (serve (POST_synthesize (inr data)) w) = w /\
  status (fst (serve (POST_synthesize (inr data)) w))
    = match data with
      | PNone => 400
      | PBool b => if b then 500 else 400
      | PInt n => if n =? 0 then 400 else 500
      | PFloat x => if SFeqb x F64.zero then 400 else 500
      | PStr s => if is_some (index 0 "text" s) then 500 else 400
      | PList xs => if existsb is_text xs then 500 else 400
      | PDict _ => 400
      end.
Proof.
  intros Hd w. unfold serve, route. step.
  destruct data as [|b|n|x|s|xs|kvs]; cbn [truthy negb py_contains].
  - split; reflexivity.
  - destruct b; split; reflexivity.
  - destruct (n =? 0); split; reflexivity.
  - destruct (SFeqb x F64.zero); split; reflexivity.
  - destruct s as [|c s]; [split; reflexivity|].
    cbn [String.eqb negb].
    destruct (index 0 "text" (String c s)); split; reflexivity.
  - destruct xs as [|x xs]; [split; reflexivity|].
    change (fun x0 : value => match x0 with PStr t => String.eqb t "text" | _ => false end)
      with is_text.
    destruct (existsb is_text (x :: xs)); split; reflexivity.
  - now elim (Hd kvs).
Qed.


(** X12: when the engine returns no sample at all at a rate the header
    can hold, the answer is still 200: the body is the bare 44-byte
    header and the duration header is that of 0.0. *)
Theorem X12_empty_audio (model : engine_state) (reqs : list Request)
    (kvs : list (string * value)) (text : value) (code : string)
    (speed : spec_float) (rate : Z) (model' : engine_state) :
  validated kvs text code speed ->
  create text code speed (kokoro (serve_all reqs (boot model)))
    = (inr ([], rate), model') ->
  0 < rate -> 2 * rate < 2 ^ 32 ->
  let r := fst (serve (POST_synthesize (json_request kvs))
                  (serve_all reqs (boot model))) in
  status r = 200 /\
  body r = FileBody (canonical_header rate 0) /\
  header "X-Audio-Duration" r = Some (str_float (S754_zero false)).
Proof.
  intros Hval Hc Hr Hr2 r. subst r.
  rewrite (serve_synthesize _ _ _ _
             (synthesize_validated _ kvs text code speed
                (reachable_globals model reqs) Hval)).
  rewrite Hc. cbn [fst respond List.length Z.of_nat].
  rewrite encode_wav_ok by (cbn [List.length Z.of_nat]; change (2 ^ 32) with 4294967296 in *; lia).
  unfold py_truediv. replace (rate =? 0) with false by (symmetry; apply Z.eqb_neq; lia).
  destruct (F64_of_int_exact rate) as [_ Hfin];
    [change (2 ^ 32) with 4294967296 in *; change (2 ^ 53) with 9007199254740992; lia|].
  destruct Hfin as (m & e & Hrate); [lia|].
  rewrite Hrate. replace (rate <? 0) with false by (symmetry; apply Z.ltb_ge; lia).
  cbn [List.length Z.of_nat Z.mul audio_to_int16 map tobytes flat_map].
  rewrite app_nil_r. repeat split.
Qed.

(** X13: an integer given as speed, below 2^53 in magnitude, reaches the
    engine as the float of exactly that value. *)
Theorem X13_integer_speed_is_exact (model : engine_state) (reqs : list Request)
    (kvs : list (string * value)) (text : value) (s : string) (n : Z) :
  lookup "text" kvs = Some text ->
  voice_arg kvs = PStr s ->
  is_voice (PStr s) = true ->
  lookup "speed" kvs = Some (PInt n) ->
  Z.abs n < 2 ^ 53 ->
  let w := serve_all reqs (boot model) in
  exists x,
    calls (snd (serve (POST_synthesize (json_request kvs)) w))
      = calls w ++ [ {| call_text := text; call_voice := s; call_speed := x |} ] /\
    (SF2Q x == inject_Z n)%Q.
Proof.
  intros Ht Hv Hm Hs Hn w.
  unfold is_voice in Hm.
  destruct (lookup s (VOICE_MAP module_globals)) as [code|] eqn:Hc; [|discriminate Hm].
  pose proof (VOICE_MAP_identity s code Hc) as ->.
  destruct (F64_of_int_exact n Hn) as [Hq Hfin].
  exists (F64.of_int n). split; [|exact Hq].
  assert (Hval : validated kvs text s (F64.of_int n)).
  { split; [exact Ht|]. split; [|eauto].
    unfold speed_arg. rewrite Hs. cbn [py_float].
    destruct (Z.eq_dec n 0) as [->|Hn0]; [reflexivity|].
    destruct (Hfin Hn0) as (m & e & ->). reflexivity. }
  rewrite (serve_synthesize _ _ _ _
             (synthesize_validated w kvs text s _ (reachable_globals model reqs) Hval)).
  reflexivity.
Qed.

(** ** Exactly when each status is given *)

Lemma synthesize_lacks_text_uniform (get_json : result value) :
  lacks_text get_json = true ->
  exists r, forall w : World, synthesize get_json w = (inr r, w).
Proof.
  intro Hl. destruct get_json as [e|data]; [eexists; intro w; reflexivity|].
  destruct data as [|b|n|x|s|xs|kvs].
  - eexists; intro w; reflexivity.
  - destruct b; eexists; intro w; reflexivity.
  - destruct (n =? 0) eqn:Hn; eexists; intro w; step; cbn [truthy]; rewrite Hn; reflexivity.
  - destruct (SFeqb x F64.zero) eqn:Hx; eexists; intro w; step; cbn [truthy];
      rewrite Hx; reflexivity.
  - destruct (String.eqb s EmptyString) eqn:Hs;
      [eexists; intro w; step; cbn [truthy]; rewrite Hs; reflexivity|].
    destruct (index 0 "text" s) eqn:Hi; eexists; intro w; step;
      cbn [truthy negb py_contains]; rewrite Hs, Hi; reflexivity.
  - destruct xs as [|x xs]; [eexists; intro w; reflexivity|].
    destruct (existsb is_text (x :: xs)) eqn:Hx; eexists; intro w; step;
      cbn [truthy negb py_contains];
      change (fun x0 : value => match x0 with PStr t => String.eqb t "text" | _ => false end)
        with is_text; rewrite Hx; reflexivity.
  - simpl in Hl. destruct kvs as [|kv kvs]; [eexists; intro w; reflexivity|].
    destruct (lookup "text" (kv :: kvs)) eqn:Ht; [discriminate Hl|].
    eexists; intro w; step; cbn [truthy negb py_contains]; rewrite Ht; reflexivity.
Qed.

Lemma synthesize_voice_unhashable_uniform (w : World) (kvs : list (string * value))
    (text : value) (speed : spec_float) :
  globals w = module_globals ->
  lookup "text" kvs = Some text ->
  py_float (speed_arg kvs) = inr speed ->
  hashable (voice_arg kvs) = false ->
  synthesize (json_request kvs) w
    = (inr (error_response
              ("unhashable type: '" ++ type_name (voice_arg kvs) ++ "'") 500), w).
Proof.
  intros Hg Ht Hs Hh. enter Hg Ht. rewrite Hs.
  destruct (voice_arg kvs); try discriminate Hh; reflexivity.
Qed.

(** X14: what a request is answered depends on the requests before it
    only through the state of the engine: two histories that leave the
    engine in the same state get the same answer to any next request. *)
Theorem X14_no_leak_between_requests (model1 model2 : engine_state)
    (reqs1 reqs2 : list Request) (req : Request) :
  kokoro (serve_all reqs1 (boot model1)) = kokoro (serve_all reqs2 (boot model2)) ->
  fst (serve req (serve_all reqs1 (boot model1)))
    = fst (serve req (serve_all reqs2 (boot model2))).
Proof.
  set (w1 := serve_all reqs1 (boot model1)). set (w2 := serve_all reqs2 (boot model2)).
  intro Hk.
  assert (Hg1 : globals w1 = module_globals) by apply reachable_globals.
  assert (Hg2 : globals w2 = module_globals) by apply reachable_globals.
  destruct req as [|get_json|]; [reflexivity| |].
  2: { unfold serve, route, voices, bind, read_globals, ret. cbn [fst].
       now rewrite Hg1, Hg2. }
  destruct (lacks_text get_json) eqn:Hl.
  { destruct (synthesize_lacks_text_uniform get_json Hl) as [r Hr].
    now rewrite (serve_synthesize _ _ _ _ (Hr w1)), (serve_synthesize _ _ _ _ (Hr w2)). }
  destruct get_json as [e|[| | | | | |kvs]]; try discriminate Hl.
  simpl in Hl. destruct (lookup "text" kvs) as [text|] eqn:Ht; [|discriminate Hl].
  change (inr (PDict kvs)) with (json_request kvs).
  destruct (py_float (speed_arg kvs)) as [e|speed] eqn:Hs.
  { now rewrite (serve_synthesize _ _ _ _ (synthesize_speed_fails w1 kvs text e Hg1 Ht Hs)),
      (serve_synthesize _ _ _ _ (synthesize_speed_fails w2 kvs text e Hg2 Ht Hs)). }
  destruct (voice_cases (voice_arg kvs)) as [Hh|[[Hh Hv]|(s & code & Hv & Hc)]].
  - now rewrite
      (serve_synthesize _ _ _ _
         (synthesize_voice_unhashable_uniform w1 kvs text speed Hg1 Ht Hs Hh)),
      (serve_synthesize _ _ _ _
         (synthesize_voice_unhashable_uniform w2 kvs text speed Hg2 Ht Hs Hh)).
  - now rewrite
      (serve_synthesize _ _ _ _ (synthesize_voice_unknown w1 kvs text speed Hg1 Ht Hs Hh Hv)),
      (serve_synthesize _ _ _ _ (synthesize_voice_unknown w2 kvs text speed Hg2 Ht Hs Hh Hv)).
  - assert (Hval : validated kvs text code speed) by (repeat split; eauto).
    rewrite (serve_synthesize _ _ _ _ (synthesize_validated w1 kvs text code speed Hg1 Hval)),
      (serve_synthesize _ _ _ _ (synthesize_validated w2 kvs text code speed Hg2 Hval)).
    cbn [fst]. now rewrite Hk.
Qed.

(** X15: a JSON object is answered with 400 in two cases and no other:
    it has no [text]; or its speed is absent or converts and its voice
    is a hashable value outside the voice table. *)
Theorem X15_when_an_object_gets_400 (model : engine_state) (reqs : list Request)
    (kvs : list (string * value)) :
  let w := serve_all reqs (boot model) in
  status (fst (serve (POST_synthesize (json_request kvs)) w)) = 400 <->
  lookup "text" kvs = None \/
  ((exists speed, py_float (speed_arg kvs) = inr speed) /\
   hashable (voice_arg kvs) = true /\
   is_voice (voice_arg kvs) = false).
Proof.
  intro w. assert (Hg : globals w = module_globals) by apply reachable_globals.
  destruct (lookup "text" kvs) as [text|] eqn:Ht.
  2: { unfold json_request.
       rewrite (serve_synthesize _ _ _ _
                  (synthesize_missing (PDict kvs) w
                     (or_intror (ex_intro _ kvs (conj eq_refl Ht))))).
       split; [auto|reflexivity]. }
  destruct (py_float (speed_arg kvs)) as [e|speed] eqn:Hs.
  { rewrite (serve_synthesize _ _ _ _ (synthesize_speed_fails w kvs text e Hg Ht Hs)).
    split; [discriminate|]. intros [Hn|((speed & Hsp) & _)]; discriminate. }
  destruct (voice_cases (voice_arg kvs)) as [Hh|[[Hh Hv]|(s & code & Hv & Hc)]].
  - rewrite (serve_synthesize _ _ _ _
               (synthesize_voice_unhashable_uniform w kvs text speed Hg Ht Hs Hh)).
    split; [discriminate|]. intros [Hn|(_ & Hh' & _)]; congruence.
  - rewrite (serve_synthesize _ _ _ _
               (synthesize_voice_unknown w kvs text speed Hg Ht Hs Hh Hv)).
    split; [intros _|reflexivity]. right. eauto.
  - assert (Hval : validated kvs text code speed) by (repeat split; eauto).
    rewrite (serve_synthesize _ _ _ _ (synthesize_validated w kvs text code speed Hg Hval)).
    cbn [fst]. split.
    + intro H400.
      destruct (respond_status (fst (create text code speed (kokoro w)))) as [Hr|Hr];
        rewrite Hr in H400; discriminate H400.
    + intros [Hn|(_ & _ & Hm)]; [discriminate Hn|].
      rewrite Hv in Hm. unfold is_voice in Hm. rewrite Hc in Hm. discriminate Hm.
Qed.

(** X16: a request is answered with 200 exactly when its body is a JSON
    object that passes validation, the engine returns on it, and the
    sample rate is positive and, like the length, fits the 32-bit fields
    of the WAV header. *)
Theorem X16_when_the_answer_is_200 (model : engine_state) (reqs : list Request)
    (get_json : result value) :
  let w := serve_all reqs (boot model) in
  status (fst (serve (POST_synthesize get_json) w)) = 200 <->
  exists kvs text code speed audio rate model',
    get_json = json_request kvs /\
    validated kvs text code speed /\
    create text code speed (kokoro w) = (inr (audio, rate), model') /\
    0 < rate /\ 2 * rate < 2 ^ 32 /\
    36 + 2 * Z.of_nat (List.length audio) < 2 ^ 32.
Proof.
  intro w. assert (Hg : globals w = module_globals) by apply reachable_globals.
  split.
  - intro Hok.
    destruct (synthesize_ok_inv get_json w Hg Hok)
      as (kvs & text & code & speed & audio & rate & wav & Hj & Hval & Hc & He & _).
    apply encode_wav_inv in He as [(Hr & Hr2 & Hlen) _].
    exists kvs, text, code, speed, audio, rate. eauto 10.
  - intros (kvs & text & code & speed & audio & rate & model' & -> & Hval & Hc
            & Hr & Hr2 & Hlen).
    rewrite (serve_synthesize _ _ _ _ (synthesize_validated w kvs text code speed Hg Hval)).
    rewrite Hc. cbn [fst respond]. rewrite encode_wav_ok by assumption.
    unfold py_truediv. now replace (rate =? 0) with false by (symmetry; apply Z.eqb_neq; lia).
Qed.

End Handlers.

(* ================================================================== *)
(** * Concrete requests and samples                                    *)
(* ================================================================== *)

Section Concrete.
Import Example.
Local Existing Instance literals.

Lemma C1_witness :
  unit_sample s_minus_half = true /\
  (sample_to_int16 s_minus_half
     = Qtrunc (SF2Q (F32.mul s_minus_half (F32.of_int 32767))) /\
   -32767 <= sample_to_int16 s_minus_half <= 32767).
Proof.
  split; [reflexivity|].
  apply (C1_sample_is_truncated s_minus_half). reflexivity.
Defined.

(** At 0.25 the product is 8191.75: the encoder emits 8191, rounding to
    nearest gives 8192. *)
Lemma C1_counterexample :
  unit_sample s_quarter = true /\
  (SF2Q s_quarter * 32767 == 32767 # 4)%Q /\
  sample_to_int16 s_quarter = 8191 /\
  spec_sample_to_int16 s_quarter = 8192.
Proof. repeat split. Qed.

Lemma known_samples_in_range : Forall (fun s => unit_sample s = true) known_samples.
Proof. repeat constructor. Defined.

Lemma C6_witness :
  Forall (fun s => unit_sample s = true) known_samples /\
  (((exists bytes, encode_wav known_samples 24000 = inr bytes) <->
    0 < 24000 /\ 2 * 24000 < 2 ^ 32 /\
    36 + 2 * Z.of_nat (List.length known_samples) < 2 ^ 32) /\
   (forall bytes, encode_wav known_samples 24000 = inr bytes ->
    exists f,
      wav_decode bytes = Some f /\
      wav_nchannels f = 1 /\
      wav_sampwidth f = 2 /\
      wav_framerate f = 24000 /\
      wav_nframes f = Z.of_nat (List.length known_samples) /\
      List.length (wav_samples f) = List.length known_samples /\
      Forall2 (fun s v => (Qabs (inject_Z v / 32767 - SF2Q s) <= 1 # 32767)%Q)
              known_samples (wav_samples f))).
Proof.
  split; [exact known_samples_in_range|].
  exact (C6_wav_round_trip known_samples 24000 known_samples_in_range).
Defined.

(** The five known samples, encoded at 24000 Hz and read back. *)
Example known_samples_round_trip :
  match encode_wav known_samples 24000 with
  | inr bytes => option_map wav_samples (wav_decode bytes)
  | inl _ => None
  end = Some [0; 16383; -16383; 32767; -32767].
Proof. reflexivity. Qed.

Lemma C2_witness :
  (lookup "text" body_unknown_voice = Some (PStr "hello") /\
   lookup "voice" body_unknown_voice = Some (PStr "robot") /\
   hashable (PStr "robot") = true /\
   is_voice (PStr "robot") = false /\
   py_float (speed_arg body_unknown_voice) = inr F64.one) /\
  (let r := fst (serve (E := recording) (POST_synthesize (json_request body_unknown_voice))
                   (serve_all [GET_voices] (boot (E := recording) tt))) in
   status r = 400 /\
   body r = JsonBody (PDict [("error", PStr ("Invalid voice: " ++ py_str (PStr "robot")))])).
Proof.
  split; [repeat split|].
  apply (C2_unknown_voice_is_rejected (E := recording) tt [GET_voices]
           body_unknown_voice (PStr "hello") (PStr "robot") F64.one);
    reflexivity.
Defined.

(** An unknown voice next to a speed that does not convert: 500, not
    400. *)
Lemma C2_counterexample :
  lookup "text" body_bad_speed = Some (PStr "hello") /\
  lookup "voice" body_bad_speed = Some (PStr "robot") /\
  is_voice (PStr "robot") = false /\
  status (fst (serve (E := recording) (POST_synthesize (json_request body_bad_speed))
                 (boot (E := recording) tt))) = 500.
Proof. repeat split. Qed.

Lemma body_plain_validated : validated body_plain (PStr "hello") "af_bella" F64.one.
Proof.
  split; [reflexivity|]. split; [reflexivity|].
  exists "af_bella". split; reflexivity.
Defined.

Lemma C3_witness :
  validated body_plain (PStr "hello") "af_bella" F64.one /\
  create (Engine := failing "model is gone") (PStr "hello") "af_bella" F64.one
    (kokoro (serve_all [] (boot (E := failing "model is gone") tt)))
    = (inl (Exn "RuntimeError" "model is gone"), tt) /\
  (let r := fst (serve (E := failing "model is gone")
                   (POST_synthesize (json_request body_plain)) (serve_all [] (boot (E := failing "model is gone") tt))) in
   status r = 500 /\
   error_field r = Some (PStr "model is gone") /\
   (has_error_text r = true <-> "model is gone" <> EmptyString)).
Proof.
  split; [exact body_plain_validated|]. split; [reflexivity|].
  exact (C3_engine_failure_is_500 (E := failing "model is gone") tt []
           body_plain (PStr "hello") "af_bella" F64.one
           (Exn "RuntimeError" "model is gone") tt body_plain_validated eq_refl).
Defined.

(** An engine that raises an exception without a message: the [error]
    field is there, and empty. *)
Lemma C3_counterexample :
  validated body_plain (PStr "hello") "af_bella" F64.one /\
  create (Engine := failing EmptyString) (PStr "hello") "af_bella" F64.one tt
    = (inl (Exn "RuntimeError" EmptyString), tt) /\
  (let r := fst (serve (E := failing EmptyString) (POST_synthesize (json_request body_plain))
                   (boot (E := failing EmptyString) tt)) in
   status r = 500 /\
   error_field r = Some (PStr EmptyString) /\
   has_error_text r = false).
Proof. split; [exact body_plain_validated|]. repeat split. Qed.

Lemma C4_witness :
  lacks_text (json_request [("voice", PStr "af_sky")]) = true /\
  (let w := serve_all [GET_health] (boot (E := recording) tt) in
   let r := fst (serve (POST_synthesize (json_request [("voice", PStr "af_sky")])) w) in
   snd (serve (POST_synthesize (json_request [("voice", PStr "af_sky")])) w) = w /\
   ((exists kvs, json_request [("voice", PStr "af_sky")] = inr (PDict kvs)) \/
    (exists data, json_request [("voice", PStr "af_sky")] = inr data /\ truthy data = false) ->
    status r = 400 /\ has_error_text r = true) /\
   (forall e, json_request [("voice", PStr "af_sky")] = inl e ->
    status r = 500 /\ error_field r = Some (PStr (exn_msg e)))).
Proof.
  split; [reflexivity|].
  apply (C4_no_text_no_synthesis (E := recording) tt [GET_health]
           (json_request [("voice", PStr "af_sky")])).
  reflexivity.
Defined.

(** The JSON body [true] is no object and has no [text]; the membership
    test on it raises, and the answer is 500. *)
Lemma C4_counterexample :
  lacks_text (inr (PBool true)) = true /\
  status (fst (serve (E := recording) (POST_synthesize (inr (PBool true))) (boot (E := recording) tt))) = 500.
Proof. repeat split. Qed.

Lemma C5_witness :
  lookup "text" body_plain = Some (PStr "hello") /\
  (let w := serve_all [] (boot (E := recording) tt) in
   let w' := snd (serve (POST_synthesize (json_request body_plain)) w) in
   (lookup "voice" body_plain = None ->
    forall speed, py_float (speed_arg body_plain) = inr speed ->
    calls w' = calls w ++ [ {| call_text := PStr "hello";
                               call_voice := "af_bella";
                               call_speed := speed |} ]) /\
   (lookup "speed" body_plain = None ->
    forall s code,
      voice_arg body_plain = PStr s -> lookup s (VOICE_MAP module_globals) = Some code ->
      calls w' = calls w ++ [ {| call_text := PStr "hello";
                                 call_voice := code;
                                 call_speed := F64.one |} ]) /\
   (SF2Q F64.one == 1)%Q).
Proof.
  split; [reflexivity|].
  apply (C5_defaults_are_passed (E := recording) tt [] body_plain (PStr "hello")).
  reflexivity.
Defined.

(** No [speed], an unknown voice: the engine is not called at all. *)
Lemma C5_counterexample :
  lookup "text" body_unknown_voice = Some (PStr "hello") /\
  lookup "speed" body_unknown_voice = None /\
  calls (snd (serve (E := recording) (POST_synthesize (json_request body_unknown_voice))
                (boot (E := recording) tt))) = [] /\
  status (fst (serve (E := recording) (POST_synthesize (json_request body_unknown_voice))
                 (boot (E := recording) tt))) = 400.
Proof. repeat split. Qed.

Lemma C7_witness :
  (let r := fst (serve (E := recording) (POST_synthesize (json_request body_plain))
                   (serve_all [] (boot (E := recording) tt))) in
   status r = 200) /\
  exists text code speed audio rate,
    create (Engine := recording) text code speed tt = (inr (audio, rate), tt) /\
    header "X-Audio-Duration"
      (fst (serve (E := recording) (POST_synthesize (json_request body_plain))
              (serve_all [] (boot (E := recording) tt))))
      = Some (str_float (F64.div (F64.of_int (Z.of_nat (List.length audio)))
                                 (F64.of_int rate))) /\
    header "X-Sample-Rate"
      (fst (serve (E := recording) (POST_synthesize (json_request body_plain))
              (serve_all [] (boot (E := recording) tt))))
      = Some (str_int rate).
Proof.
  split; [reflexivity|].
  exact (C7_duration_header (E := recording) tt [] (json_request body_plain) eq_refl).
Defined.

Lemma C9_witness :
  (lookup "text" body_bad_speed = Some (PStr "hello") /\
   lookup "speed" body_bad_speed = Some (PStr "fast") /\
   py_float (PStr "fast")
     = inl (ValueError "could not convert string to float: 'fast'")) /\
  (let w := serve_all [] (boot (E := recording) tt) in
   let r := fst (serve (POST_synthesize (json_request body_bad_speed)) w) in
   status r = 500 /\
   error_field r = Some (PStr "could not convert string to float: 'fast'") /\
   snd (serve (POST_synthesize (json_request body_bad_speed)) w) = w).
Proof.
  split; [repeat split|].
  apply (C9_unconvertible_speed_is_500 (E := recording) tt [] body_bad_speed
           (PStr "hello") (PStr "fast")
           (ValueError "could not convert string to float: 'fast'"));
    reflexivity.
Defined.

Lemma C10_witness :
  lookup "text" body_empty_text = Some (PStr EmptyString) /\
  (let w := serve_all [] (boot (E := recording) tt) in
   let r := fst (serve (POST_synthesize (json_request body_empty_text)) w) in
   let w' := snd (serve (POST_synthesize (json_request body_empty_text)) w) in
   (status r = 400 ->
    body r = JsonBody (PDict [("error",
               PStr ("Invalid voice: " ++ py_str (voice_arg body_empty_text)))])) /\
   (forall code speed,
      validated body_empty_text (PStr EmptyString) code speed ->
      status r <> 400 /\
      calls w' = calls w ++ [ {| call_text := PStr EmptyString;
                                 call_voice := code;
                                 call_speed := speed |} ])).
Proof.
  split; [reflexivity|].
  apply (C10_empty_text_is_passed_on (E := recording) tt [] body_empty_text).
  reflexivity.
Defined.

(** An empty [text] with an unknown voice: rejected with 400 all the
    same. *)
Lemma C10_counterexample :
  lookup "text" body_empty_text_unknown_voice = Some (PStr EmptyString) /\
  status (fst (serve (E := recording)
                 (POST_synthesize (json_request body_empty_text_unknown_voice))
                 (boot (E := recording) tt))) = 400.
Proof. repeat split. Qed.

End Concrete.

Section MoreConcrete.
Import Example Fixture.
Local Existing Instance literals.

Lemma known_samples_encoded :
  encode_wav known_samples 24000
    = inr (canonical_header 24000 10 ++ tobytes (audio_to_int16 known_samples)).
Proof. reflexivity. Defined.

Lemma X1_witness :
  encode_wav known_samples 24000
    = inr (canonical_header 24000 10 ++ tobytes (audio_to_int16 known_samples)) /\
  List.length (canonical_header 24000 10 ++ tobytes (audio_to_int16 known_samples))
    = (44 + 2 * List.length known_samples)%nat.
Proof.
  split; [exact known_samples_encoded|].
  exact (proj1 (proj2 (X1_encoding_layout known_samples 24000 _ known_samples_encoded))).
Defined.


Lemma X3_witness :
  unit_sample s_quarter = true /\
  unit_sample (SFopp s_quarter) = true /\
  sample_to_int16 (SFopp s_quarter) = - sample_to_int16 s_quarter.
Proof.
  split; [reflexivity|].
  exact (X3_sample_symmetry s_quarter eq_refl).
Defined.

Lemma X6_witness :
  (lookup "text" body_full = Some (PInt 42) /\
   lookup "voice" body_full = Some (PStr "bm") /\
   is_voice (PStr "bm") = true /\
   lookup "speed" body_full = Some (PFloat (F64.of_int 3))) /\
  calls (snd (serve (E := recording) (POST_synthesize (json_request body_full))
                (serve_all [GET_health] (boot (E := recording) tt))))
    = calls (serve_all [GET_health] (boot (E := recording) tt))
      ++ [ {| call_text := PInt 42; call_voice := "bm"; call_speed := F64.of_int 3 |} ].
Proof.
  split; [repeat split|].
  exact (X6_arguments_pass_through (E := recording) tt [GET_health] body_full
           (PInt 42) "bm" (F64.of_int 3) eq_refl eq_refl eq_refl eq_refl).
Defined.

Lemma X9_witness :
  (lookup "text" body_unknown_voice = Some (PStr "hello") /\
   lookup "voice" body_unknown_voice = Some (PStr "robot") /\
   py_float (speed_arg body_unknown_voice) = inr F64.one) /\
  (In (PStr "robot")
      (advertised (fst (serve (E := recording) GET_voices
                          (serve_all [] (boot (E := recording) tt))))) <->
   status (fst (serve (E := recording) (POST_synthesize (json_request body_unknown_voice))
                  (serve_all [] (boot (E := recording) tt)))) <> 400).
Proof.
  split; [repeat split|].
  exact (X9_advertised_voices_are_accepted (E := recording) tt [] body_unknown_voice
           (PStr "hello") "robot" F64.one eq_refl eq_refl eq_refl).
Defined.

Lemma not_an_object (xs : list value) (kvs : list (string * value)) :
  PList xs <> PDict kvs.
Proof. discriminate. Defined.

Lemma X10_witness :
  (forall kvs, PList [PInt 1; PStr "text"] <> PDict kvs) /\
  snd (serve (E := recording) (POST_synthesize (inr (PList [PInt 1; PStr "text"])))
         (serve_all [] (boot (E := recording) tt)))
    = serve_all [] (boot (E := recording) tt) /\
  status (fst (serve (E := recording) (POST_synthesize (inr (PList [PInt 1; PStr "text"])))
                 (serve_all [] (boot (E := recording) tt)))) = 500.
Proof.
  split; [exact (not_an_object _)|].
  exact (X10_bodies_that_are_no_object (E := recording) tt []
           (PList [PInt 1; PStr "text"]) (not_an_object _)).
Defined.


Lemma X12_witness :
  (validated body_plain (PStr "hello") "af_bella" F64.one /\
   create (Engine := returning [] 24000) (PStr "hello") "af_bella" F64.one
     (kokoro (serve_all [] (boot (E := returning [] 24000) tt)))
     = (inr ([], 24000), tt) /\
   0 < 24000 /\ 2 * 24000 < 2 ^ 32) /\
  (let r := fst (serve (E := returning [] 24000)
                   (POST_synthesize (json_request body_plain))
                   (serve_all [] (boot (E := returning [] 24000) tt))) in
   status r = 200 /\
   body r = FileBody (canonical_header 24000 0) /\
   header "X-Audio-Duration" r = Some (str_float (S754_zero false))).
Proof.
  split; [split; [exact body_plain_validated|repeat split]|].
  exact (X12_empty_audio (E := returning [] 24000) tt [] body_plain (PStr "hello")
           "af_bella" F64.one 24000 tt body_plain_validated eq_refl eq_refl eq_refl).
Defined.

Lemma X13_witness :
  (lookup "text" body_integer_speed = Some (PStr "hello") /\
   voice_arg body_integer_speed = PStr "af_bella" /\
   is_voice (PStr "af_bella") = true /\
   lookup "speed" body_integer_speed = Some (PInt 2) /\
   Z.abs 2 < 2 ^ 53) /\
  exists x,
    calls (snd (serve (E := recording) (POST_synthesize (json_request body_integer_speed))
                  (serve_all [] (boot (E := recording) tt))))
      = calls (serve_all [] (boot (E := recording) tt))
        ++ [ {| call_text := PStr "hello"; call_voice := "af_bella"; call_speed := x |} ] /\
    (SF2Q x == inject_Z 2)%Q.
Proof.
  split; [repeat split|].
  exact (X13_integer_speed_is_exact (E := recording) tt [] body_integer_speed
           (PStr "hello") "af_bella" 2 eq_refl eq_refl eq_refl eq_refl eq_refl).
Defined.

Lemma X14_witness :
  kokoro (serve_all [] (boot (E := recording) tt))
    = kokoro (serve_all [POST_synthesize (json_request body_plain); GET_voices]
                (boot (E := recording) tt)) /\
  fst (serve (E := recording) (POST_synthesize (json_request body_full))
         (serve_all [] (boot (E := recording) tt)))
    = fst (serve (E := recording) (POST_synthesize (json_request body_full))
             (serve_all [POST_synthesize (json_request body_plain); GET_voices]
                (boot (E := recording) tt))).
Proof.
  split; [reflexivity|].
  exact (X14_no_leak_between_requests (E := recording) tt tt []
           [POST_synthesize (json_request body_plain); GET_voices]
           (POST_synthesize (json_request body_full)) eq_refl).
Defined.

End MoreConcrete.
